(** * Goblet load-test harness: pkt-line payloads, protocol client,
      worker loop and statistics ([loadtest/loadtest.py])

    The harness is modelled function by function.  What it takes from its
    surroundings is passed in: the answer of the HTTP server and the time
    a request took ([transport]), the values drawn from [random] ([draw]),
    the order in which the worker threads complete, and the wall-clock
    duration of the run.  Python exceptions are the left summand of
    [result].  Floating-point numbers (latencies, rates) are read as exact
    rationals; the one place where the source truncates a floating-point
    product, the percentile index, is also computed in binary64 and
    compared ([Binary64]). *)

From Stdlib Require Import ZArith NArith QArith String Ascii List Lia Lqa.
From Stdlib Require Import Floats Uint63.
From Stdlib Require Import DecimalString Sorting.Sorted Sorting.Permutation.
From stdpp Require Import gmap fin_maps.
Import ListNotations.

Local Open Scope string_scope.
Local Open Scope list_scope.

#[local] Arguments String.append : simpl nomatch.

(** ** Python values

    A Python [bytes] object is a sequence of octets: a Rocq [string]
    (its characters are 8-bit [ascii]).  A Python [str] is a sequence
    of Unicode code points: a list of [N].  [py] reads an ASCII literal
    of the source as a [str]. *)

Abbreviation bytes := string (only parsing).
Abbreviation str := (list N) (only parsing).

Definition py (s : string) : str := map N_of_ascii (list_ascii_of_string s).

(** The byte ["\n"]. *)
Definition LF : bytes := String (ascii_of_N 10) EmptyString.

Definition bytes_concat (l : list bytes) : bytes :=
  fold_right String.append EmptyString l.

Fixpoint bytes_repeat (c : ascii) (n : nat) : bytes :=
  match n with
  | O => EmptyString
  | S k => String c (bytes_repeat c k)
  end.

(** ** Exceptions *)

Inductive exn : Type :=
| ZeroDivisionError
| IndexError
| ValueError
| StatisticsError
| UnicodeEncodeError.

Definition result (A : Type) : Type := (exn + A)%type.

Definition ret {A} (a : A) : result A := inr a.
Definition raise {A} (e : exn) : result A := inl e.
Definition bind {A B} (m : result A) (k : A -> result B) : result B :=
  match m with
  | inl e => inl e
  | inr a => k a
  end.

Notation "'try!' x ':=' m 'in' k" := (bind m (fun x => k))
  (at level 10, x name, m at level 100, k at level 200).

(** ** Formatting an integer as [f"{n:04x}"] *)

Module Hex.

Definition digit (d : N) : ascii :=
  if (d <? 10)%N then ascii_of_N (48 + d) else ascii_of_N (87 + d).

(** Most significant digit first; [fuel] bounds the number of digits. *)
Fixpoint digits (fuel : nat) (n : N) (acc : bytes) : bytes :=
  match fuel with
  | O => acc
  | S f =>
      let acc' := String (digit (n mod 16)) acc in
      if (n / 16 =? 0)%N then acc' else digits f (n / 16) acc'
  end.

(** [format(n, "x")] *)
Definition format_x (n : N) : bytes := digits (S (N.to_nat (N.log2 n))) n EmptyString.

(** [format(n, "04x")]: zero-padded on the left to a width of at least 4. *)
Definition format_04x (n : N) : bytes :=
  let s := format_x n in
  (bytes_repeat "0"%char (4 - String.length s) ++ s)%string.

Definition digit_value (c : ascii) : option N :=
  let k := N_of_ascii c in
  if ((48 <=? k) && (k <=? 57))%N then Some (k - 48)%N
  else if ((97 <=? k) && (k <=? 102))%N then Some (k - 87)%N
  else None.

(** Value of a string of lowercase hexadecimal digits. *)
Fixpoint parse_from (acc : N) (s : bytes) : option N :=
  match s with
  | EmptyString => Some acc
  | String c s' =>
      match digit_value c with
      | Some d => parse_from (16 * acc + d) s'
      | None => None
      end
  end.

Definition parse (s : bytes) : option N := parse_from 0 s.

End Hex.

(** ** Pkt-line framing

    A pkt-line as the payload literals of the source spell it: four
    length characters followed by the content.  [pkt_prefix_ok] compares
    the four characters a line carries with the count of its bytes. *)

Definition pkt_prefix (line : bytes) : bytes := substring 0 4 line.
Definition pkt_content (line : bytes) : bytes := substring 4 (String.length line - 4) line.

(** The prefix a pkt-line with this content must carry: the byte count of
    the content plus the four bytes of the prefix itself. *)
Definition pkt_len_prefix (content : bytes) : bytes :=
  Hex.format_04x (N.of_nat (String.length content + 4)).

Definition pkt_prefix_ok (line : bytes) : bool :=
  String.eqb (pkt_prefix line) (pkt_len_prefix (pkt_content line)).

(** *** [GitProtocolV2Client.ls_refs]: the payload *)

Definition ls_refs_command : bytes := ("0014command=ls-refs" ++ LF)%string.
Definition ls_refs_peel : bytes := ("0009peel" ++ LF)%string.
Definition ls_refs_symrefs : bytes := ("000csymrefs" ++ LF)%string.
Definition ls_refs_unborn : bytes := ("000bunborn" ++ LF)%string.
Definition ls_refs_ref_prefix : bytes := ("0014ref-prefix refs/" ++ LF)%string.

Definition ls_refs_payload : bytes :=
  bytes_concat
    [ ls_refs_command;
      "0001";
      ls_refs_peel;
      ls_refs_symrefs;
      ls_refs_unborn;
      ls_refs_ref_prefix;
      "0000" ].

(** The five pkt-lines of the payload that carry content. *)
Definition ls_refs_lines : list bytes :=
  [ ls_refs_command; ls_refs_peel; ls_refs_symrefs; ls_refs_unborn; ls_refs_ref_prefix ].

(** *** [str.encode()]: UTF-8, strict *)

Definition byte_of (n : N) : ascii := ascii_of_N n.

Definition is_surrogate (c : N) : bool := ((55296 <=? c) && (c <=? 57343))%N.

Definition utf8_char (c : N) : result bytes :=
  if (c <? 128)%N then ret (String (byte_of c) EmptyString)
  else if (c <? 2048)%N then
    ret (String (byte_of (192 + c / 64))
        (String (byte_of (128 + c mod 64)) EmptyString))
  else if (c <? 65536)%N then
    if is_surrogate c then raise UnicodeEncodeError
    else
      ret (String (byte_of (224 + c / 4096))
          (String (byte_of (128 + (c / 64) mod 64))
          (String (byte_of (128 + c mod 64)) EmptyString)))
  else
    ret (String (byte_of (240 + c / 262144))
        (String (byte_of (128 + (c / 4096) mod 64))
        (String (byte_of (128 + (c / 64) mod 64))
        (String (byte_of (128 + c mod 64)) EmptyString)))).

Fixpoint str_encode (s : str) : result bytes :=
  match s with
  | [] => ret EmptyString
  | c :: s' =>
      try! b := utf8_char c in
      try! bs := str_encode s' in
      ret (b ++ bs)%string
  end.

(** *** [GitProtocolV2Client.fetch]: the payload *)

Definition fetch_command : bytes := ("0011command=fetch" ++ LF)%string.
Definition fetch_thin_pack : bytes := ("000cthin-pack" ++ LF)%string.
Definition fetch_ofs_delta : bytes := ("000cofs-delta" ++ LF)%string.
Definition fetch_done : bytes := ("0009done" ++ LF)%string.

(** [f"want {want_ref}\n".encode()] *)
Definition want_line (want_ref : str) : result bytes :=
  str_encode (py "want " ++ want_ref ++ [10%N]).

(** [f"{len(want_line) + 4:04x}".encode()] *)
Definition want_prefix (line : bytes) : bytes :=
  Hex.format_04x (N.of_nat (String.length line + 4)).

Definition fetch_payload (want_ref : str) : result bytes :=
  try! line := want_line want_ref in
  ret (bytes_concat
         [ fetch_command;
           "0001";
           fetch_thin_pack;
           fetch_ofs_delta;
           want_prefix line;
           line;
           ("0000" ++ fetch_done)%string;
           "0000" ]).

(** What the payload holds before and after the want pkt-line. *)
Definition fetch_head : bytes :=
  (fetch_command ++ "0001" ++ fetch_thin_pack ++ fetch_ofs_delta)%string.
Definition fetch_tail : bytes := ("0000" ++ fetch_done ++ "0000")%string.

(** The prefix computed from the length of the [str] rather than from the
    length of its encoding. *)
Definition want_prefix_by_str_len (want_ref : str) : bytes :=
  Hex.format_04x (N.of_nat (length (py "want " ++ want_ref ++ [10%N]) + 4)).

(** The four pkt-lines of the fetch payload that are literals of the source. *)
Definition fetch_fixed_lines : list bytes :=
  [ fetch_command; fetch_thin_pack; fetch_ofs_delta; fetch_done ].

(** *** Reading a pkt-line stream

    Not part of the harness: Git's framing rule, as the receiver of a
    payload applies it.  Four hexadecimal characters give the byte count
    of the packet, prefix included; [0000] is a flush packet and [0001] a
    delimiter packet. *)

Inductive packet : Type :=
| Flush
| Delim
| Data (content : bytes).

Definition bytes_drop (n : nat) (s : bytes) : bytes := substring n (String.length s - n) s.

Fixpoint pkt_decode (fuel : nat) (s : bytes) : option (list packet) :=
  match fuel with
  | O => None
  | S f =>
      if (String.length s =? 0)%nat then Some []
      else if (String.length s <? 4)%nat then None
      else
        match Hex.parse (substring 0 4 s) with
        | None => None
        | Some n =>
            if (n =? 0)%N then option_map (cons Flush) (pkt_decode f (bytes_drop 4 s))
            else if (n =? 1)%N then option_map (cons Delim) (pkt_decode f (bytes_drop 4 s))
            else
              let k := N.to_nat n in
              if ((k <? 4) || (String.length s <? k))%nat then None
              else option_map (cons (Data (substring 4 (k - 4) s)))
                              (pkt_decode f (bytes_drop k s))
        end
  end.

Definition pkt_read (s : bytes) : option (list packet) :=
  pkt_decode (S (String.length s)) s.

(** ** The HTTP exchange

    [session.post(url, data=payload, headers=headers, timeout=...)] either
    returns a response or raises; the wall-clock time it took is read off
    [time.time()] in both cases. *)

Record request : Type := {
  base : str;                       (* [self.base_url] *)
  path : str;                       (* [f"/{repo_path}/git-upload-pack"] *)
  data : bytes;
  headers : list (str * str);
  timeout : Z
}.

Record response : Type := {
  status_code : Z;
  content : bytes;
  headers_get : str -> option str   (* [response.headers.get] *)
}.

Inductive outcome : Type :=
| Returned (r : response)
| Raised (message : str).            (* [str(e)] of the exception *)

Record exchange : Type := {
  outcome_of : outcome;
  elapsed : Q                         (* [time.time() - start], seconds *)
}.

Definition transport : Type := request -> exchange.

Definition str_of_int (z : Z) : str := py (NilZero.string_of_int (Z.to_int z)).

Definition upload_pack_headers : list (str * str) :=
  [ (py "Content-Type", py "application/x-git-upload-pack-request");
    (py "Git-Protocol", py "version=2");
    (py "Accept", py "application/x-git-upload-pack-result") ].

Definition upload_pack_path (repo_path : str) : str :=
  py "/" ++ repo_path ++ py "/git-upload-pack".

(** ** [GitProtocolV2Client] *)

Record GitProtocolV2Client : Type := {
  base_url : str;
  client_timeout : Z
}.

(** [GitProtocolV2Client.__init__], with its default timeout. *)
Definition new_client (url : str) : GitProtocolV2Client :=
  {| base_url := url; client_timeout := 60 |}.

(** The POST both operations send. *)
Definition upload_pack_request (self : GitProtocolV2Client) (repo_path : str)
    (payload : bytes) : request :=
  {| base := base_url self; path := upload_pack_path repo_path; data := payload;
     headers := upload_pack_headers; timeout := client_timeout self |}.

(** The tuple [(success, duration_ms, served_by, error)]. *)
Definition reply : Type := (bool * Q * str * str)%type.

Definition reply_success (r : reply) : bool := fst (fst (fst r)).
Definition reply_duration (r : reply) : Q := snd (fst (fst r)).
Definition reply_served_by (r : reply) : str := snd (fst r).
Definition reply_error (r : reply) : str := snd r.

Definition ls_refs (self : GitProtocolV2Client) (post : transport) (repo_path : str) : reply :=
  let x := post (upload_pack_request self repo_path ls_refs_payload) in
  let duration_ms := (elapsed x * 1000)%Q in
  match outcome_of x with
  | Returned response =>
      if negb (status_code response =? 200)%Z then
        (false, duration_ms, [], py "HTTP " ++ str_of_int (status_code response))
      else if (String.length (content response) =? 0)%nat then
        (false, duration_ms, [], py "Empty response")
      else
        let served_by := default [] (headers_get response (py "X-Served-By")) in
        (true, duration_ms, served_by, [])
  | Raised e => (false, duration_ms, [], e)
  end.

Definition fetch (self : GitProtocolV2Client) (post : transport) (repo_path want_ref : str)
  : result reply :=
  try! payload := fetch_payload want_ref in
  let x := post (upload_pack_request self repo_path payload) in
  let duration_ms := (elapsed x * 1000)%Q in
  match outcome_of x with
  | Returned response =>
      if negb (status_code response =? 200)%Z then
        ret (false, duration_ms, [], py "HTTP " ++ str_of_int (status_code response))
      else
        let served_by := default [] (headers_get response (py "X-Served-By")) in
        ret (true, duration_ms, served_by, [])
  | Raised e => ret (false, duration_ms, [], e)
  end.

(** ** [TestResult] *)

Record TestResult : Type := {
  success : bool;
  duration_ms : Q;
  repo : str;
  operation : str;
  served_by : str;
  error : str
}.

(** ** [LoadTestRunner] *)

Record LoadTestRunner : Type := {
  target_url : str;
  repositories : list str;
  num_workers : Z;
  requests_per_worker : Z;
  think_time_ms : Z;
  results : list TestResult
}.

(** [LoadTestRunner.__init__] *)
Definition new_runner (url : str) (repos : list str) (workers requests think : Z)
  : LoadTestRunner :=
  {| target_url := url; repositories := repos; num_workers := workers;
     requests_per_worker := requests; think_time_ms := think; results := [] |}.

Definition set_results (self : LoadTestRunner) (rs : list TestResult) : LoadTestRunner :=
  {| target_url := target_url self; repositories := repositories self;
     num_workers := num_workers self; requests_per_worker := requests_per_worker self;
     think_time_ms := think_time_ms self; results := rs |}.

(** [range(n)] *)
Definition range (n : Z) : list nat := seq 0 (Z.to_nat n).

(** What one iteration of a worker's loop draws from its surroundings:
    the index behind [random.choice], the value of [random.random()],
    and the behaviour of the network at that moment. *)
Record draw : Type := {
  choice_index : nat;
  random_value : Q;
  post_of : transport
}.

(** [random.choice(seq)]: [seq[randbelow(len(seq))]], an [IndexError] on
    an empty sequence. *)
Definition random_choice {A} (k : nat) (l : list A) : result A :=
  match l !! (k mod length l)%nat with
  | Some x => ret x
  | None => raise IndexError
  end.

Definition Qltb (a b : Q) : bool := negb (Qle_bool b a).

(** One iteration of the loop of [worker_task]. *)
Definition worker_request (self : LoadTestRunner) (client : GitProtocolV2Client) (d : draw)
  : result TestResult :=
  try! repo := random_choice (choice_index d) (repositories self) in
  if Qltb (random_value d) (8 # 10) then
    let '(success, duration, served_by, error) := ls_refs client (post_of d) repo in
    ret {| success := success; duration_ms := duration; repo := repo;
           operation := py "ls-refs"; served_by := served_by; error := error |}
  else
    let dummy_ref := repeat 48%N 40 in
    try! r := fetch client (post_of d) repo dummy_ref in
    let '(success, duration, served_by, error) := r in
    ret {| success := success; duration_ms := duration; repo := repo;
           operation := py "fetch"; served_by := served_by; error := error |}.

Fixpoint worker_loop (self : LoadTestRunner) (client : GitProtocolV2Client)
    (env : nat -> draw) (iterations : list nat) (results : list TestResult)
  : result (list TestResult) :=
  match iterations with
  | [] => ret results
  | i :: rest =>
      try! r := worker_request self client (env i) in
      worker_loop self client env rest (results ++ [r])
  end.

(** [LoadTestRunner.worker_task].  The progress line and the think-time
    sleep leave the results untouched. *)
Definition worker_task (self : LoadTestRunner) (worker_id : nat) (env : nat -> draw)
  : result (list TestResult) :=
  let client := new_client (target_url self) in
  worker_loop self client env (range (requests_per_worker self)) [].

(** ** Statistics

    Latencies are Python floats; they are read here as exact rationals. *)

(** [a / b] on numbers. *)
Definition truediv (a b : Q) : result Q :=
  if Qeq_bool b 0 then raise ZeroDivisionError else ret (a / b)%Q.

Definition Qlen {A} (l : list A) : Q := inject_Z (Z.of_nat (length l)).

(** [int(x)]: truncation toward zero. *)
Definition int (x : Q) : Z := Z.quot (Qnum x) (Zpos (Qden x)).

(** [l[i]] *)
Definition getitem {A} (l : list A) (i : Z) : result A :=
  let j := if (i <? 0)%Z then (i + Z.of_nat (length l))%Z else i in
  if (j <? 0)%Z then raise IndexError
  else match l !! Z.to_nat j with
       | Some x => ret x
       | None => raise IndexError
       end.

Fixpoint insort (x : Q) (l : list Q) : list Q :=
  match l with
  | [] => [x]
  | y :: l' => if Qle_bool x y then x :: l else y :: insort x l'
  end.

(** [sorted(l)]: ascending and stable. *)
Definition sorted (l : list Q) : list Q := fold_right insort [] l.

(** [min(l)] and [max(l)]: the first smallest and the first largest element. *)
Definition py_min (l : list Q) : result Q :=
  match l with
  | [] => raise ValueError
  | x :: l' => ret (fold_left (fun m y => if Qltb y m then y else m) l' x)
  end.

Definition py_max (l : list Q) : result Q :=
  match l with
  | [] => raise ValueError
  | x :: l' => ret (fold_left (fun m y => if Qltb m y then y else m) l' x)
  end.

Definition Qsum (l : list Q) : Q := fold_left Qplus l 0%Q.

(** [statistics.mean] *)
Definition mean (l : list Q) : result Q :=
  match l with
  | [] => raise StatisticsError
  | _ => ret (Qsum l / Qlen l)%Q
  end.

(** [statistics.median] *)
Definition median (l : list Q) : result Q :=
  let data := sorted l in
  let n := length data in
  if (n =? 0)%nat then raise StatisticsError
  else if (n mod 2 =? 1)%nat then getitem data (Z.of_nat (n / 2))
  else
    let i := (n / 2)%nat in
    try! a := getitem data (Z.of_nat (i - 1)) in
    try! b := getitem data (Z.of_nat i) in
    ret ((a + b) / 2)%Q.

(** [sorted(durations)[int(len(durations) * p)]] *)
Definition percentile_index (n : nat) (p : Q) : Z := int (inject_Z (Z.of_nat n) * p).

Definition percentile (durations : list Q) (p : Q) : result Q :=
  getitem (sorted durations) (percentile_index (length durations) p).

(** [e if durations else 0] *)
Definition if_durations (durations : list Q) (e : result Q) : result Q :=
  match durations with
  | [] => ret 0%Q
  | _ => e
  end.

Module Stats.

(** The value under ["duration_ms"]. *)
Record latency : Type := {
  min : Q;
  max : Q;
  mean : Q;
  median : Q;
  p95 : Q;
  p99 : Q
}.

Record t : Type := {
  total_requests : nat;
  successful : nat;
  failed : nat;
  success_rate : Q;
  total_duration_sec : Q;
  requests_per_sec : Q;
  duration_ms : latency;
  server_distribution : gmap (list N) nat;
  repo_distribution : gmap (list N) nat;
  errors : gmap (list N) nat
}.

End Stats.

(** [d[k] = d.get(k, 0) + 1] *)
Definition count_up (k : list N) (d : gmap (list N) nat) : gmap (list N) nat :=
  <[ k := (default 0 (d !! k) + 1)%nat ]> d.

(** Sum of the values of a dictionary of counters. *)
Definition sum_values (d : gmap (list N) nat) : nat :=
  map_fold (fun _ v acc => (v + acc)%nat) 0%nat d.

Definition server_counts (rs : list TestResult) : gmap (list N) nat :=
  fold_left (fun d r => match served_by r with
                        | [] => d
                        | _ => count_up (served_by r) d
                        end) rs ∅.

Definition repo_requests (rs : list TestResult) : gmap (list N) nat :=
  fold_left (fun d r => count_up (repo r) d) rs ∅.

Definition error_counts (failed : list TestResult) : gmap (list N) nat :=
  fold_left (fun d r => count_up (error r) d) failed ∅.

(** The dictionary under ["duration_ms"]. *)
Definition latency_stats (durations : list Q) : result Stats.latency :=
  try! lo := if_durations durations (py_min durations) in
  try! hi := if_durations durations (py_max durations) in
  try! avg := if_durations durations (mean durations) in
  try! med := if_durations durations (median durations) in
  try! q95 := if_durations durations (percentile durations (95 # 100)) in
  try! q99 := if_durations durations (percentile durations (99 # 100)) in
  ret {| Stats.min := lo; Stats.max := hi; Stats.mean := avg; Stats.median := med;
         Stats.p95 := q95; Stats.p99 := q99 |}.

(** [LoadTestRunner._compute_statistics] *)
Definition _compute_statistics (self : LoadTestRunner) (total_duration : Q) : result Stats.t :=
  let total_requests := length (results self) in
  let successful := List.filter success (results self) in
  let failed := List.filter (fun r => negb (success r)) (results self) in
  let durations := map duration_ms successful in
  let server_counts := server_counts (results self) in
  let repo_requests := repo_requests (results self) in
  try! rate := truediv (Qlen successful) (Qlen (results self)) in
  try! rps := truediv (Qlen (results self)) total_duration in
  try! lat := latency_stats durations in
  ret {| Stats.total_requests := total_requests;
         Stats.successful := length successful;
         Stats.failed := length failed;
         Stats.success_rate := (rate * 100)%Q;
         Stats.total_duration_sec := total_duration;
         Stats.requests_per_sec := rps;
         Stats.duration_ms := lat;
         Stats.server_distribution := server_counts;
         Stats.repo_distribution := repo_requests;
         Stats.errors := error_counts failed |}.

(** ** [LoadTestRunner.run]

    [completed] is the order in which [as_completed] hands the workers'
    futures back, and [total_duration] the wall-clock time of the run. *)

Fixpoint gather (futures : nat -> result (list TestResult)) (completed : list nat)
    (acc : list TestResult) : list TestResult * result unit :=
  match completed with
  | [] => (acc, ret tt)
  | w :: rest =>
      match futures w with
      | inl e => (acc, raise e)
      | inr rs => gather futures rest (acc ++ rs)
      end
  end.

Definition run (self : LoadTestRunner) (env : nat -> nat -> draw) (completed : list nat)
    (total_duration : Q) : LoadTestRunner * result Stats.t :=
  if (num_workers self <=? 0)%Z then (self, raise ValueError)
  else
    let futures := fun i => worker_task self i (env i) in
    let '(rs, joined) := gather futures completed (results self) in
    let self' := set_results self rs in
    (self', try! _ := joined in _compute_statistics self' total_duration).

(** [future.result()] of a worker that returned; the empty list stands
    in for a worker that raised. *)
Definition future_result (f : result (list TestResult)) : list TestResult :=
  match f with
  | inr rs => rs
  | inl _ => []
  end.

(** ** [main]: the exit code

    [sys.exit(0 if stats["success_rate"] >= 95 else 1)] *)

Definition exit_code (stats : Stats.t) : Z :=
  if Qle_bool 95 (Stats.success_rate stats) then 0%Z else 1%Z.

(** ** Sample surroundings, for the examples below *)

Definition localhost : str := py "http://localhost:8080".
Definition golang_go : str := py "github.com/golang/go".

(** [ "0" * 40 ] *)
Definition zero_ref : str := repeat 48%N 40.

Definition no_headers : str -> option str := fun _ => None.

Definition served_by_cache1 : str -> option str :=
  fun k => if decide (k = py "X-Served-By") then Some (py "cache-1") else None.

(** A server that answers every request after 10 ms with the given
    status, body and headers. *)
Definition answers (status : Z) (body : bytes) (hdrs : str -> option str) : transport :=
  fun _ => {| outcome_of := Returned {| status_code := status; content := body;
                                        headers_get := hdrs |};
              elapsed := 1 # 100 |}.

(** A connection that is refused after 1 ms. *)
Definition refuses : transport :=
  fun _ => {| outcome_of := Raised (py "Connection refused"); elapsed := 1 # 1000 |}.

(** Whether a result names the server that handled it. *)
Definition has_served_by (r : TestResult) : bool :=
  match served_by r with [] => false | _ => true end.

(** Three results: a success served by [cache-1], a 503, and a success
    that names no server. *)
Definition sample_results : list TestResult :=
  [ {| success := true; duration_ms := 12; repo := golang_go; operation := py "ls-refs";
       served_by := py "cache-1"; error := [] |};
    {| success := false; duration_ms := 3; repo := golang_go; operation := py "fetch";
       served_by := []; error := py "HTTP 503" |};
    {| success := true; duration_ms := 20; repo := py "github.com/torvalds/linux";
       operation := py "ls-refs"; served_by := []; error := [] |} ].

Definition sample_runner : LoadTestRunner :=
  set_results (new_runner localhost [golang_go; py "github.com/torvalds/linux"] 1 3 0)
              sample_results.

(** A run that issues no request: one worker with a quota of zero
    ([--workers 1 --requests 0]). *)
Definition idle_runner : LoadTestRunner := new_runner localhost [golang_go] 1 0 100.

(** Surroundings in which every request is answered 200 with a body by
    [cache-1]; the draws vary with the worker and the iteration. *)
Definition steady : nat -> nat -> draw :=
  fun w i => {| choice_index := w + i;
                random_value := if Nat.even (w + i) then 1 # 2 else 9 # 10;
                post_of := answers 200 "0000" served_by_cache1 |}.

(** The end-to-end scenario: one repository, two workers, five requests
    each, no think time. *)
Definition two_by_five : LoadTestRunner := new_runner localhost [golang_go] 2 5 0.

(** ** The percentile index in binary64

    The source multiplies in floating point: [len(durations) * 0.95] is a
    binary64 product, truncated by [int].  [Binary64.index] computes it
    bit for bit, to compare with [percentile_index]. *)

Module Binary64.

Definition p95 : float := 0x1.e666666666666p-1%float.   (* 0.95 *)
Definition p99 : float := 0x1.fae147ae147aep-1%float.   (* 0.99 *)

Definition trunc (f : float) : option Z :=
  match Prim2SF f with
  | S754_zero _ => Some 0%Z
  | S754_finite s m e =>
      let a := if (0 <=? e)%Z then (Zpos m * 2 ^ e)%Z
               else Z.quot (Zpos m) (2 ^ (- e)) in
      Some (if s then (- a)%Z else a)
  | _ => None
  end.

Definition index (n : nat) (p : float) : option Z :=
  trunc (PrimFloat.mul (PrimFloat.of_uint63 (Uint63.of_Z (Z.of_nat n))) p).

Definition agrees (p : float) (q : Q) (n : nat) : bool :=
  match index n p with
  | Some z => (z =? percentile_index n q)%Z
  | None => false
  end.

End Binary64.

(** ** The exit test in binary64

    [len(successful) / total_requests * 100 >= 95] as the source computes
    it, with a binary64 quotient and product, to compare with the exact
    test [95 * total <= 100 * successful]. *)

Module Binary64Rate.

Definition of_nat (n : nat) : float :=
  PrimFloat.of_uint63 (Uint63.of_Z (Z.of_nat n)).

Definition success_rate (successful total : nat) : float :=
  (of_nat successful / of_nat total * 100)%float.

Definition agrees (total successful : nat) : bool :=
  Bool.eqb (PrimFloat.leb 95 (success_rate successful total))
           (95 * Z.of_nat total <=? 100 * Z.of_nat successful)%Z.

End Binary64Rate.

(** * Properties *)

(** ** Hexadecimal formatting *)

Module HexFacts.
Import Hex.

Lemma digit_value_digit d : (d < 16)%N -> digit_value (digit d) = Some d.
Proof.
  intros H.
  assert (Hd : In d (map N.of_nat (seq 0 16))).
  { apply in_map_iff. exists (N.to_nat d). split; [lia|]. apply in_seq. lia. }
  simpl in Hd. repeat (destruct Hd as [<-|Hd]; [reflexivity|]). destruct Hd.
Qed.

(** Reading back what [digits] wrote continues from the number written. *)
Lemma parse_digits fuel : forall n acc a,
    (n < 16 ^ N.of_nat fuel)%N ->
    exists k, parse_from a (digits fuel n acc) = parse_from (a * 16 ^ k + n) acc.
Proof.
  induction fuel as [|f IH]; intros n acc a Hn.
  - exists 0%N. simpl in *. f_equal. lia.
  - cbn [digits].
    assert (Hmod : (n mod 16 < 16)%N) by (apply N.mod_lt; lia).
    assert (Hdiv : (n = 16 * (n / 16) + n mod 16)%N) by (apply N.div_mod; lia).
    destruct (N.eqb_spec (n / 16) 0) as [Hz|Hz].
    + exists 1%N. cbn [parse_from]. rewrite digit_value_digit by assumption.
      f_equal. lia.
    + destruct (IH (n / 16)%N (String (digit (n mod 16)) acc) a) as [k Hk].
      { apply N.Div0.div_lt_upper_bound.
        replace (16 * 16 ^ N.of_nat f)%N with (16 ^ N.of_nat (S f))%N; [assumption|].
        rewrite Nnat.Nat2N.inj_succ, N.pow_succ_r'. reflexivity. }
      exists (N.succ k). rewrite Hk. cbn [parse_from].
      rewrite digit_value_digit by assumption. f_equal.
      rewrite N.pow_succ_r'. lia.
Qed.

Lemma fuel_enough n : (n < 16 ^ N.of_nat (S (N.to_nat (N.log2 n))))%N.
Proof.
  rewrite Nnat.Nat2N.inj_succ, Nnat.N2Nat.id.
  destruct (N.eq_dec n 0%N) as [->|Hn]; [reflexivity|].
  apply N.lt_le_trans with (2 ^ N.succ (N.log2 n))%N.
  - apply N.log2_spec. lia.
  - change 16%N with (2 ^ 4)%N. rewrite <- N.pow_mul_r.
    apply N.pow_le_mono_r; lia.
Qed.

Lemma parse_format_x n : parse (format_x n) = Some n.
Proof.
  unfold parse, format_x.
  destruct (parse_digits _ n EmptyString 0%N (fuel_enough n)) as [k ->].
  reflexivity.
Qed.

Lemma parse_zeros k : forall s, parse_from 0 (bytes_repeat "0"%char k ++ s)%string = parse_from 0 s.
Proof. induction k as [|k IH]; intros s; [reflexivity|]. simpl. apply IH. Qed.

(** [format(n, "04x")] reads back as [n]. *)
Lemma parse_format_04x n : parse (format_04x n) = Some n.
Proof. unfold format_04x, parse. rewrite parse_zeros. apply parse_format_x. Qed.

Lemma length_append (a b : string) :
  String.length (a ++ b)%string = (String.length a + String.length b)%nat.
Proof. induction a as [|c a IH]; simpl; [reflexivity|]. now rewrite IH. Qed.

Lemma length_bytes_repeat c k : String.length (bytes_repeat c k) = k.
Proof. induction k; simpl; congruence. Qed.

(** The width of [format(n, "04x")] is never below four. *)
Lemma format_04x_width n : (4 <= String.length (format_04x n))%nat.
Proof. unfold format_04x. rewrite length_append, length_bytes_repeat. lia. Qed.

Lemma length_digits fuel : forall n acc k,
    (n < 16 ^ N.of_nat (S k))%N ->
    (String.length (digits fuel n acc) <= String.length acc + S k)%nat.
Proof.
  induction fuel as [|f IH]; intros n acc k Hn; cbn [digits]; [lia|].
  destruct (N.eqb_spec (n / 16) 0) as [Hz|Hz]; [simpl; lia|].
  destruct k as [|k].
  - exfalso. apply Hz. apply N.div_small. exact Hn.
  - specialize (IH (n / 16)%N (String (digit (n mod 16)) acc) k).
    simpl String.length in IH. etransitivity; [apply IH|lia].
    apply N.Div0.div_lt_upper_bound.
    replace (16 * 16 ^ N.of_nat (S k))%N with (16 ^ N.of_nat (S (S k)))%N; [assumption|].
    rewrite (Nnat.Nat2N.inj_succ (S k)), N.pow_succ_r'. reflexivity.
Qed.

(** Below [0x10000] the width is exactly four. *)
Lemma format_04x_four n : (n < 65536)%N -> String.length (format_04x n) = 4%nat.
Proof.
  intros Hn. unfold format_04x. rewrite length_append, length_bytes_repeat.
  pose proof (length_digits (S (N.to_nat (N.log2 n))) n EmptyString 3 Hn) as H.
  fold (format_x n) in H. cbv zeta.
  change (String.length EmptyString) with 0%nat in H. lia.
Qed.

End HexFacts.

(** ** Pkt-line payloads *)

(** The payload of [ls_refs] is one constant, whatever the repository. *)
Lemma ls_refs_payload_fixed :
  ls_refs_payload =
  ("0014command=ls-refs" ++ LF ++ "0001" ++ "0009peel" ++ LF ++ "000csymrefs" ++ LF
   ++ "000bunborn" ++ LF ++ "0014ref-prefix refs/" ++ LF ++ "0000")%string.
Proof. reflexivity. Qed.

(** C3.  Of the five content lines of the ls-refs payload, the first four
    carry the prefix of their own byte count; the [ref-prefix refs/] line
    does not: it is 21 bytes long with its prefix and says [0014] (20).
    A receiver that applies the framing rule cannot read the payload. *)
Theorem ls_refs_ref_prefix_miscounted :
  map pkt_prefix_ok ls_refs_lines = [true; true; true; true; false]
  /\ String.length ls_refs_ref_prefix = 21%nat
  /\ pkt_prefix ls_refs_ref_prefix = "0014"
  /\ pkt_len_prefix (pkt_content ls_refs_ref_prefix) = "0015"
  /\ pkt_read ls_refs_payload = None.
Proof. repeat split; vm_compute; reflexivity. Qed.

(** With the prefix the framing rule asks for, the payload reads as the
    five lines the source means to send. *)
Lemma ls_refs_payload_repaired :
  pkt_read (bytes_concat
              [ ls_refs_command; "0001"; ls_refs_peel; ls_refs_symrefs; ls_refs_unborn;
                ("0015ref-prefix refs/" ++ LF)%string; "0000" ])
  = Some [ Data ("command=ls-refs" ++ LF)%string; Delim; Data ("peel" ++ LF)%string;
           Data ("symrefs" ++ LF)%string; Data ("unborn" ++ LF)%string;
           Data ("ref-prefix refs/" ++ LF)%string; Flush ].
Proof. vm_compute. reflexivity. Qed.

(** C4.  Of the four literal lines of the fetch payload only [done] carries
    the prefix of its own byte count: [command=fetch] is 18 bytes long and
    says [0011] (17), [thin-pack] and [ofs-delta] are 14 bytes long and
    say [000c] (12). *)
Theorem fetch_fixed_lines_miscounted :
  map pkt_prefix_ok fetch_fixed_lines = [false; false; false; true]
  /\ map pkt_prefix fetch_fixed_lines = ["0011"; "000c"; "000c"; "0009"]
  /\ map (fun l => pkt_len_prefix (pkt_content l)) fetch_fixed_lines
     = ["0012"; "000e"; "000e"; "0009"]
  /\ (exists payload, fetch_payload zero_ref = inr payload /\ pkt_read payload = None).
Proof.
  repeat split; try (vm_compute; reflexivity).
  eexists. split; vm_compute; reflexivity.
Qed.

(** ** Byte strings *)

Module BytesFacts.

Lemma append_assoc (a b c : string) : ((a ++ b) ++ c = a ++ (b ++ c))%string.
Proof. induction a as [|x a IH]; simpl; [reflexivity|]. now rewrite IH. Qed.

Lemma substring_whole s : substring 0 (String.length s) s = s.
Proof. induction s as [|c s IH]; simpl; [reflexivity|]. now rewrite IH. Qed.

Lemma substring_prefix a b : substring 0 (String.length a) (a ++ b) = a.
Proof.
  induction a as [|c a IH]; simpl.
  - destruct b; reflexivity.
  - now rewrite IH.
Qed.

Lemma substring_skip a b i m :
  substring (String.length a + i) m (a ++ b) = substring i m b.
Proof. induction a as [|c a IH]; simpl; [reflexivity|]. apply IH. Qed.

Lemma bytes_drop_app a b : bytes_drop (String.length a) (a ++ b) = b.
Proof.
  unfold bytes_drop. rewrite HexFacts.length_append.
  replace (String.length a + String.length b - String.length a)%nat
    with (String.length b) by lia.
  rewrite <- (Nat.add_0_r (String.length a)) at 1.
  rewrite substring_skip. apply substring_whole.
Qed.

End BytesFacts.

(** ** UTF-8 encoding of a [str] *)

Lemma encode_app (a b : list N) :
  str_encode (a ++ b) = try! x := str_encode a in try! y := str_encode b in ret (x ++ y)%string.
Proof.
  induction a as [|c a IH]; simpl.
  - destruct (str_encode b); reflexivity.
  - destruct (utf8_char c) as [e|x]; simpl; [reflexivity|].
    rewrite IH. destruct (str_encode a) as [e|xs]; simpl; [reflexivity|].
    destruct (str_encode b) as [e|ys]; simpl; [reflexivity|].
    unfold ret. f_equal. symmetry. apply BytesFacts.append_assoc.
Qed.

Lemma utf8_char_raises c e : utf8_char c = inl e -> e = UnicodeEncodeError.
Proof.
  unfold utf8_char, ret, raise.
  repeat match goal with |- context [if ?b then _ else _] => destruct b end;
    intros H; inversion H; reflexivity.
Qed.

Lemma utf8_char_total c : is_surrogate c = false -> exists b, utf8_char c = inr b.
Proof.
  intros H. unfold utf8_char. rewrite H.
  repeat match goal with |- context [if ?b then _ else _] => destruct b end; eexists; reflexivity.
Qed.

(** Encoding succeeds on every string free of surrogates... *)
Lemma encode_total (s : list N) :
  Forall (fun c => is_surrogate c = false) s -> exists b, str_encode s = inr b.
Proof.
  induction 1 as [|c s Hc _ [b Hb]]; simpl; [eexists; reflexivity|].
  destruct (utf8_char_total c Hc) as [x ->]. rewrite Hb. eexists. reflexivity.
Qed.

(** ...and raises on every string that holds one. *)
Lemma encode_surrogate (s : list N) :
  Exists (fun c => is_surrogate c = true) s -> str_encode s = raise UnicodeEncodeError.
Proof.
  induction 1 as [c s Hc|c s _ IH]; simpl.
  - unfold utf8_char. rewrite Hc.
    apply andb_true_iff in Hc as [Hlo Hhi].
    apply N.leb_le in Hlo, Hhi.
    assert (H1 : (c <? 128)%N = false) by (apply N.ltb_ge; lia).
    assert (H2 : (c <? 2048)%N = false) by (apply N.ltb_ge; lia).
    assert (H3 : (c <? 65536)%N = true) by (apply N.ltb_lt; lia).
    rewrite H1, H2, H3. reflexivity.
  - rewrite IH. destruct (utf8_char c) as [e|x] eqn:E; simpl; [|reflexivity].
    now rewrite (utf8_char_raises c e E).
Qed.

(** An ASCII string encodes to as many bytes as it has characters. *)
Lemma encode_ascii (s : list N) :
  Forall (fun c => (c < 128)%N) s ->
  exists b, str_encode s = inr b /\ String.length b = length s.
Proof.
  induction 1 as [|c s Hc _ [b [Hb Hl]]]; simpl; [eexists; split; reflexivity|].
  unfold utf8_char. apply N.ltb_lt in Hc. rewrite Hc. simpl. rewrite Hb. simpl.
  eexists. split; [reflexivity|]. simpl. now rewrite Hl.
Qed.

(** ** The want pkt-line of the fetch payload *)

Lemma want_prefix_parse line :
  Hex.parse (want_prefix line) = Some (N.of_nat (String.length line + 4)).
Proof. apply HexFacts.parse_format_04x. Qed.

Lemma want_prefix_four line :
  (N.of_nat (String.length line + 4) < 65536)%N -> String.length (want_prefix line) = 4%nat.
Proof. apply HexFacts.format_04x_four. Qed.

(** A receiver reads the want pkt-line back as [line] and goes on with
    what follows it. *)
Lemma pkt_decode_want f line rest :
  (N.of_nat (String.length line + 4) < 65536)%N ->
  pkt_decode (S f) (want_prefix line ++ line ++ rest)%string
  = option_map (cons (Data line)) (pkt_decode f rest).
Proof.
  intros Hlt.
  pose proof (want_prefix_four line Hlt) as Hlen.
  pose proof (want_prefix_parse line) as Hparse.
  set (p := want_prefix line) in *.
  cbn [pkt_decode].
  rewrite !HexFacts.length_append, Hlen.
  replace (4 + (String.length line + String.length rest) =? 0)%nat with false
    by (symmetry; apply Nat.eqb_neq; lia).
  replace (4 + (String.length line + String.length rest) <? 4)%nat with false
    by (symmetry; apply Nat.ltb_ge; lia).
  rewrite <- Hlen at 1. rewrite BytesFacts.substring_prefix, Hparse.
  replace (N.of_nat (String.length line + 4) =? 0)%N with false
    by (symmetry; apply N.eqb_neq; lia).
  replace (N.of_nat (String.length line + 4) =? 1)%N with false
    by (symmetry; apply N.eqb_neq; lia).
  cbv zeta. rewrite Nnat.Nat2N.id.
  replace (String.length line + 4 <? 4)%nat with false
    by (symmetry; apply Nat.ltb_ge; lia).
  replace (4 + (String.length line + String.length rest) <? String.length line + 4)%nat
    with false by (symmetry; apply Nat.ltb_ge; lia).
  cbn [orb].
  replace (String.length line + 4 - 4)%nat with (String.length line) by lia.
  rewrite <- (Nat.add_0_r 4) at 1. rewrite <- Hlen at 1.
  rewrite BytesFacts.substring_skip, BytesFacts.substring_prefix.
  rewrite <- BytesFacts.append_assoc.
  replace (String.length line + 4)%nat with (String.length (p ++ line)%string)
    by (rewrite HexFacts.length_append; lia).
  rewrite BytesFacts.bytes_drop_app. reflexivity.
Qed.

Lemma pkt_decode_fetch_tail f :
  pkt_decode (S (S (S (S f)))) fetch_tail
  = Some [Flush; Data ("done" ++ LF)%string; Flush].
Proof. reflexivity. Qed.

Lemma want_line_surrogate (want_ref : list N) :
  Exists (fun c => is_surrogate c = true) want_ref ->
  fetch_payload want_ref = raise UnicodeEncodeError.
Proof.
  intros H. unfold fetch_payload, want_line.
  rewrite encode_surrogate; [reflexivity|].
  apply Exists_app. right. apply Exists_app. now left.
Qed.

(** C5, as the code has it.  For every [want_ref] free of lone surrogates
    the fetch payload is built, and its want pkt-line carries, in lowercase
    hexadecimal padded to at least four digits, the byte count of the UTF-8
    encoding of ["want " + want_ref + "\n"] plus four.  Up to [0xffff] the
    prefix has exactly four digits and a receiver reads the line back; for
    an ASCII [want_ref] the byte count is the length of the string.  A
    [want_ref] that holds a lone surrogate makes the encoding raise. *)
Theorem fetch_want_line_framed (want_ref : list N) :
  (Forall (fun c => is_surrogate c = false) want_ref ->
   exists line,
     want_line want_ref = inr line
     /\ fetch_payload want_ref
        = inr (fetch_head ++ want_prefix line ++ line ++ fetch_tail)%string
     /\ Hex.parse (want_prefix line) = Some (N.of_nat (String.length line + 4))
     /\ (4 <= String.length (want_prefix line))%nat
     /\ ((N.of_nat (String.length line + 4) < 65536)%N ->
         String.length (want_prefix line) = 4%nat
         /\ pkt_read (want_prefix line ++ line ++ fetch_tail)%string
            = Some [Data line; Flush; Data ("done" ++ LF)%string; Flush])
     /\ (Forall (fun c => (c < 128)%N) want_ref ->
         String.length line = length (py "want " ++ want_ref ++ [10%N])))
  /\ (Exists (fun c => is_surrogate c = true) want_ref ->
      fetch_payload want_ref = raise UnicodeEncodeError).
Proof.
  split; [|apply want_line_surrogate].
  intros Hs.
  assert (Hall : Forall (fun c => is_surrogate c = false) (py "want " ++ want_ref ++ [10%N])).
  { apply Forall_app. split; [repeat constructor|].
    apply Forall_app. split; [assumption|repeat constructor]. }
  destruct (encode_total _ Hall) as [line Hline].
  exists line. unfold want_line, fetch_payload. unfold want_line. rewrite Hline.
  split; [reflexivity|]. split; [reflexivity|].
  split; [apply want_prefix_parse|].
  split; [apply HexFacts.format_04x_width|].
  split.
  - intros Hlt. split; [now apply want_prefix_four|].
    unfold pkt_read. rewrite pkt_decode_want by assumption.
    rewrite !HexFacts.length_append.
    change (String.length fetch_tail) with (4 + 13)%nat.
    replace (String.length (want_prefix line) + (String.length line + (4 + 13)))%nat
      with (S (S (S (S (String.length (want_prefix line) + String.length line + 13)))))
      by lia.
    rewrite pkt_decode_fetch_tail. reflexivity.
  - intros Hascii.
    assert (Hall' : Forall (fun c => (c < 128)%N) (py "want " ++ want_ref ++ [10%N])).
    { apply Forall_app. split; [repeat constructor; reflexivity|].
      apply Forall_app. split; [assumption|repeat constructor; reflexivity]. }
    destruct (encode_ascii _ Hall') as [b [Hb Hl]].
    rewrite Hline in Hb. inversion Hb. subst b. exact Hl.
Qed.

(** The placeholder the workers send, forty zeros: the prefix is [0032],
    50 bytes, and the want line reads back. *)
Lemma fetch_want_line_framed_witness :
  exists line,
    want_line zero_ref = inr line
    /\ String.length line = 46%nat
    /\ want_prefix line = "0032"
    /\ pkt_read (want_prefix line ++ line ++ fetch_tail)%string
       = Some [Data line; Flush; Data ("done" ++ LF)%string; Flush].
Proof.
  destruct (fetch_want_line_framed zero_ref) as [H _].
  destruct H as (line & Hline & _ & _ & _ & Hread & Hlen).
  { unfold zero_ref. repeat constructor. }
  exists line. split; [exact Hline|].
  assert (Hl : String.length line = 46%nat).
  { rewrite Hlen; [reflexivity|]. unfold zero_ref. repeat constructor. }
  split; [exact Hl|].
  split; [unfold want_prefix; rewrite Hl; reflexivity|].
  apply Hread. rewrite Hl. reflexivity.
Defined.

(** C5, as it is worded, fails three ways: on ["é"] the prefix counts the
    two bytes of the encoding ([000c]) where the length of the string gives
    [000b]; on a lone surrogate the encoding raises; and a 65526-character
    [want_ref] gets the five-digit prefix [10000]. *)
Lemma fetch_want_prefix_counterexample :
  (exists line, want_line [233%N] = inr line
                /\ want_prefix line = "000c"
                /\ want_prefix_by_str_len [233%N] = "000b")
  /\ fetch_payload [55296%N] = raise UnicodeEncodeError
  /\ (exists line, want_line (repeat 48%N (N.to_nat 65526)) = inr line
                   /\ want_prefix line = "10000"
                   /\ String.length (want_prefix line) = 5%nat).
Proof.
  split; [|split].
  - eexists. split; [vm_compute; reflexivity|]. split; vm_compute; reflexivity.
  - vm_compute. reflexivity.
  - set (ref := repeat 48%N (N.to_nat 65526)).
    assert (Hall : Forall (fun c => (c < 128)%N) (py "want " ++ ref ++ [10%N])).
    { apply Forall_app. split; [repeat constructor; reflexivity|].
      apply Forall_app. split; [|repeat constructor; reflexivity].
      apply List.Forall_forall. intros c Hc.
      apply List.repeat_spec in Hc. subst c. reflexivity. }
    destruct (encode_ascii _ Hall) as [line [Hline Hlen]].
    exists line. split; [exact Hline|].
    assert (Hn : N.of_nat (String.length line + 4) = 65536%N).
    { rewrite Hlen, !List.length_app. unfold ref. rewrite List.repeat_length.
      change (length (py "want ")) with 5%nat. change (length [10%N]) with 1%nat. lia. }
    unfold want_prefix. rewrite Hn. split; vm_compute; reflexivity.
Qed.

(** ** The protocol client *)

Section Client.

Variable self : GitProtocolV2Client.
Variable post : transport.
Variable repo_path : list N.


(** An empty body makes [ls_refs] fail with ["Empty response"]. *)
Lemma ls_refs_empty_body r :
  outcome_of (post (upload_pack_request self repo_path ls_refs_payload)) = Returned r ->
  status_code r = 200%Z -> content r = EmptyString ->
  reply_success (ls_refs self post repo_path) = false
  /\ reply_error (ls_refs self post repo_path) = py "Empty response".
Proof.
  intros Hr Hs Hc. unfold ls_refs. rewrite Hr, Hs, Hc. split; reflexivity.
Qed.

(** X2.  [fetch] never looks at the body: status 200 alone is a success. *)
Lemma fetch_success_iff want_ref payload rep :
  fetch_payload want_ref = inr payload ->
  fetch self post repo_path want_ref = inr rep ->
  (reply_success rep = true <->
   exists r, outcome_of (post (upload_pack_request self repo_path payload)) = Returned r
             /\ status_code r = 200%Z).
Proof.
  intros Hp. unfold fetch. rewrite Hp. cbn [bind].
  destruct (outcome_of (post _)) as [r|e]; cbn.
  - destruct (Z.eqb_spec (status_code r) 200) as [Hs|Hs]; cbn;
      intros H; inversion H; subst rep; cbn.
    + split; [|reflexivity]. intros _. exists r. split; congruence.
    + split; [discriminate|]. intros [r' [Hr Hs']]. inversion Hr; subst r'. contradiction.
  - intros H; inversion H; subst rep; cbn.
    split; [discriminate|]. intros [r' [Hr _]]. discriminate.
Qed.

Lemma ls_refs_failure_served_by :
  reply_success (ls_refs self post repo_path) = false ->
  reply_served_by (ls_refs self post repo_path) = [].
Proof.
  unfold ls_refs. destruct (outcome_of (post _)) as [r|e]; cbn; [|reflexivity].
  destruct (status_code r =? 200)%Z; cbn; [|reflexivity].
  destruct (String.length (content r) =? 0)%nat; cbn; [reflexivity|discriminate].
Qed.

Lemma fetch_failure_served_by want_ref rep :
  fetch self post repo_path want_ref = inr rep ->
  reply_success rep = false -> reply_served_by rep = [].
Proof.
  unfold fetch.
  destruct (fetch_payload want_ref) as [e|payload]; cbn [bind]; [discriminate|].
  destruct (outcome_of (post _)) as [r|e]; cbn.
  - destruct (status_code r =? 200)%Z; cbn; intros H; inversion H; subst rep; cbn;
      [discriminate|reflexivity].
  - intros H; inversion H; subst rep; reflexivity.
Qed.

(** C9.  Whenever [ls_refs] or [fetch] reports a failure, the
    [served_by] it returns is the empty string, whatever headers the
    response carried; a [served_by] that is not empty comes with a
    success. *)
Theorem failure_hides_served_by want_ref :
  (reply_success (ls_refs self post repo_path) = false ->
   reply_served_by (ls_refs self post repo_path) = [])
  /\ (forall rep, fetch self post repo_path want_ref = inr rep ->
                  reply_success rep = false -> reply_served_by rep = [])
  /\ (reply_served_by (ls_refs self post repo_path) <> [] ->
      reply_success (ls_refs self post repo_path) = true)
  /\ (forall rep, fetch self post repo_path want_ref = inr rep ->
                  reply_served_by rep <> [] -> reply_success rep = true).
Proof.
  split; [exact ls_refs_failure_served_by|].
  split; [exact (fetch_failure_served_by want_ref)|].
  split.
  - intros H. destruct (reply_success _) eqn:E; [reflexivity|].
    now apply ls_refs_failure_served_by in E.
  - intros rep Hrep H. destruct (reply_success rep) eqn:E; [reflexivity|].
    now apply (fetch_failure_served_by want_ref rep Hrep) in E.
Qed.

End Client.

(** A 503 that names the cache node which served it: the header is
    dropped by both operations. *)
Lemma failure_hides_served_by_witness :
  reply_served_by (ls_refs (new_client localhost) (answers 503 "busy" served_by_cache1) golang_go) = []
  /\ (forall rep,
         fetch (new_client localhost) (answers 503 "busy" served_by_cache1) golang_go zero_ref
         = inr rep -> reply_served_by rep = []).
Proof.
  destruct (failure_hides_served_by (new_client localhost)
              (answers 503 "busy" served_by_cache1) golang_go zero_ref) as [A [B _]].
  split.
  - apply A. reflexivity.
  - intros rep Hrep. apply (B rep Hrep).
    vm_compute in Hrep. inversion Hrep. reflexivity.
Defined.

(** On a success the header is passed on. *)
Lemma served_by_on_success :
  reply_served_by (ls_refs (new_client localhost) (answers 200 "0000" served_by_cache1) golang_go)
  = py "cache-1"
  /\ (exists rep,
         fetch (new_client localhost) (answers 200 "0000" served_by_cache1) golang_go zero_ref
         = inr rep /\ reply_served_by rep = py "cache-1").
Proof. split; [reflexivity|]. eexists. split; reflexivity. Qed.

(** C2.  A 200 answer with an empty body: [ls_refs] reports the failure
    ["Empty response"], [fetch] reports a success with no error. *)
Theorem fetch_accepts_empty_body :
  ls_refs (new_client localhost) (answers 200 "" no_headers) golang_go
  = (false, (1 # 100) * 1000, [], py "Empty response")%Q
  /\ fetch (new_client localhost) (answers 200 "" no_headers) golang_go zero_ref
     = inr (true, (1 # 100) * 1000, [], [])%Q.
Proof. split; reflexivity. Qed.

(** ** Sorting and indexing *)

Lemma Qle_bool_false x y : Qle_bool x y = false -> (y <= x)%Q.
Proof.
  intros H. apply Qlt_le_weak, Qnot_le_lt. intros Hle.
  apply Qle_bool_iff in Hle. congruence.
Qed.

Lemma insort_perm x l : Permutation (x :: l) (insort x l).
Proof.
  induction l as [|y l IH]; simpl; [reflexivity|].
  destruct (Qle_bool x y); [reflexivity|].
  etransitivity; [apply perm_swap|]. now apply perm_skip.
Qed.

Lemma insort_hdrel a x l : (a <= x)%Q -> HdRel Qle a l -> HdRel Qle a (insort x l).
Proof.
  intros Hax Hal. destruct l as [|y l]; simpl; [now constructor|].
  destruct (Qle_bool x y); constructor; [assumption|].
  now inversion Hal.
Qed.

Lemma insort_sorted x l : Sorted Qle l -> Sorted Qle (insort x l).
Proof.
  induction 1 as [|y l Hs IH Hhd]; simpl; [repeat constructor|].
  destruct (Qle_bool x y) eqn:E.
  - constructor; [now constructor|]. constructor. now apply Qle_bool_iff.
  - constructor; [assumption|]. apply insort_hdrel; [|assumption].
    now apply Qle_bool_false.
Qed.

(** [sorted] returns its argument rearranged in ascending order. *)
Lemma sorted_perm l : Permutation l (sorted l).
Proof.
  induction l as [|x l IH]; simpl; [reflexivity|].
  etransitivity; [apply perm_skip, IH|apply insort_perm].
Qed.

Lemma sorted_ascending l : Sorted Qle (sorted l).
Proof. induction l as [|x l IH]; simpl; [constructor|now apply insort_sorted]. Qed.

Lemma sorted_length l : length (sorted l) = length l.
Proof. symmetry. apply Permutation_length, sorted_perm. Qed.

Lemma getitem_in_range {A} (l : list A) (i : Z) :
  (0 <= i < Z.of_nat (length l))%Z ->
  exists x, l !! Z.to_nat i = Some x /\ getitem l i = inr x.
Proof.
  intros [Hlo Hhi]. unfold getitem.
  replace (i <? 0)%Z with false by (symmetry; apply Z.ltb_ge; lia).
  replace (i <? 0)%Z with false by (symmetry; apply Z.ltb_ge; lia).
  destruct (l !! Z.to_nat i) as [x|] eqn:E; [now exists x|].
  apply lookup_ge_None in E. lia.
Qed.

(** [int(n * (a/100))] is the integer quotient of [n * a] by 100. *)
Lemma percentile_index_quot (n : nat) (a : positive) :
  percentile_index n (Zpos a # 100) = (Z.of_nat n * Zpos a / 100)%Z.
Proof.
  unfold percentile_index, int. cbn [Qmult Qnum Qden inject_Z].
  change (Zpos (1 * 100)) with 100%Z.
  apply Z.quot_div_nonneg; lia.
Qed.

Lemma percentile_index_nat (n : nat) (a : positive) :
  Z.to_nat (percentile_index n (Zpos a # 100)) = (n * Pos.to_nat a / 100)%nat.
Proof.
  rewrite percentile_index_quot.
  apply Nat2Z.inj. rewrite Z2Nat.id by (apply Z.div_pos; lia).
  rewrite Nat2Z.inj_div, Nat2Z.inj_mul, positive_nat_Z. reflexivity.
Qed.

Lemma percentile_index_bounds (n : nat) (a : positive) :
  (0 < n)%nat -> (Zpos a < 100)%Z ->
  (0 <= percentile_index n (Zpos a # 100) < Z.of_nat n)%Z.
Proof.
  intros Hn Ha. rewrite percentile_index_quot. split.
  - apply Z.div_pos; lia.
  - apply Z.div_lt_upper_bound; nia.
Qed.

(** ** Latency statistics *)

Lemma percentile_returns (durations : list Q) (a : positive) :
  durations <> [] -> (Zpos a < 100)%Z ->
  exists x, sorted durations !! (length durations * Pos.to_nat a / 100)%nat = Some x
            /\ percentile durations (Zpos a # 100) = inr x.
Proof.
  intros Hne Ha. unfold percentile.
  assert (Hn : (0 < length durations)%nat) by (destruct durations; [congruence|simpl; lia]).
  destruct (getitem_in_range (sorted durations) (percentile_index (length durations) (Zpos a # 100)))
    as [x [Hx Hg]].
  { rewrite sorted_length. now apply percentile_index_bounds. }
  exists x. split; [|exact Hg]. now rewrite <- percentile_index_nat.
Qed.

Lemma median_returns (durations : list Q) :
  durations <> [] -> exists m, median durations = inr m.
Proof.
  intros Hne. unfold median. rewrite sorted_length.
  assert (Hn : (0 < length durations)%nat) by (destruct durations; [congruence|simpl; lia]).
  set (n := length durations) in *.
  destruct (Nat.eqb_spec n 0) as [H0|_]; [lia|].
  assert (Hhalf : (n / 2 < n)%nat) by (apply Nat.div_lt; lia).
  destruct (getitem_in_range (sorted durations) (Z.of_nat (n / 2))) as [b [_ Hb]].
  { rewrite sorted_length. fold n. lia. }
  destruct (Nat.eqb_spec (n mod 2) 1) as [_|_]; [now exists b|].
  destruct (getitem_in_range (sorted durations) (Z.of_nat (n / 2 - 1))) as [a [_ Ha]].
  { rewrite sorted_length. fold n. lia. }
  rewrite Ha, Hb. cbn. eexists. reflexivity.
Qed.

Lemma if_durations_cons (d : Q) (ds : list Q) (e : result Q) :
  if_durations (d :: ds) e = e.
Proof. reflexivity. Qed.

(** The shape of the latency statistics of a list that is not empty. *)
Lemma latency_stats_cons (d : Q) (ds : list Q) :
  exists lo hi avg med x y,
    latency_stats (d :: ds)
    = inr {| Stats.min := lo; Stats.max := hi; Stats.mean := avg; Stats.median := med;
             Stats.p95 := x; Stats.p99 := y |}
    /\ sorted (d :: ds) !! (length (d :: ds) * 95 / 100)%nat = Some x
    /\ sorted (d :: ds) !! (length (d :: ds) * 99 / 100)%nat = Some y.
Proof.
  assert (Hne : d :: ds <> []) by discriminate.
  destruct (median_returns (d :: ds) Hne) as [m Hm].
  destruct (percentile_returns (d :: ds) 95 Hne eq_refl) as [x [Hx Hpx]].
  destruct (percentile_returns (d :: ds) 99 Hne eq_refl) as [y [Hy Hpy]].
  unfold latency_stats. rewrite !if_durations_cons, Hm, Hpx, Hpy.
  cbn [py_min py_max mean bind ret].
  do 6 eexists. split; [reflexivity|]. split; assumption.
Qed.

Lemma latency_stats_total (durations : list Q) :
  exists lat, latency_stats durations = inr lat.
Proof.
  destruct durations as [|d ds]; [eexists; reflexivity|].
  destruct (latency_stats_cons d ds) as (lo & hi & avg & med & x & y & H & _).
  eexists. exact H.
Qed.




Example latency_stats_five :
  latency_stats [10; 20; 30; 40; 50]%Q
  = inr {| Stats.min := 10; Stats.max := 50; Stats.mean := 150 / 5;
           Stats.median := 30; Stats.p95 := 50; Stats.p99 := 50 |}%Q.
Proof. reflexivity. Qed.

(** C10.  On a latency list that is not empty, of length [n], the indices
    [int(n * 0.95)] and [int(n * 0.99)] are [floor(95 n / 100)] and
    [floor(99 n / 100)], lie in [0, n), and both lookups return. *)
Theorem percentile_index_in_bounds (durations : list Q) :
  durations <> [] ->
  let n := length durations in
  percentile_index n (95 # 100) = (Z.of_nat n * 95 / 100)%Z
  /\ percentile_index n (99 # 100) = (Z.of_nat n * 99 / 100)%Z
  /\ (0 <= percentile_index n (95 # 100) < Z.of_nat n)%Z
  /\ (0 <= percentile_index n (99 # 100) < Z.of_nat n)%Z
  /\ (exists x, percentile durations (95 # 100) = inr x)
  /\ (exists y, percentile durations (99 # 100) = inr y).
Proof.
  intros Hne n.
  assert (Hn : (0 < n)%nat) by (subst n; destruct durations; [congruence|simpl; lia]).
  split; [apply percentile_index_quot|]. split; [apply percentile_index_quot|].
  split; [now apply percentile_index_bounds|]. split; [now apply percentile_index_bounds|].
  destruct (percentile_returns durations 95 Hne eq_refl) as [x [_ Hx]].
  destruct (percentile_returns durations 99 Hne eq_refl) as [y [_ Hy]].
  split; [now exists x|now exists y].
Qed.

Lemma percentile_index_in_bounds_witness :
  (0 <= percentile_index 1 (95 # 100) < 1)%Z
  /\ (0 <= percentile_index 1 (99 # 100) < 1)%Z
  /\ (exists x, percentile [7 # 2] (95 # 100) = inr x).
Proof.
  destruct (percentile_index_in_bounds [7 # 2]) as [_ [_ [A [B [C _]]]]]; [discriminate|].
  split; [exact A|]. split; [exact B|exact C].
Defined.

(** The binary64 product the source computes truncates to the same index,
    checked for every length up to 2000. *)
Lemma binary64_index_agrees :
  forallb (Binary64.agrees Binary64.p95 (95 # 100)) (seq 0 2001) = true
  /\ forallb (Binary64.agrees Binary64.p99 (99 # 100)) (seq 0 2001) = true.
Proof. split; vm_compute; reflexivity. Qed.

(** ** Dictionaries of counters *)

Lemma sum_values_comm (j1 j2 : list N) (z1 z2 y : nat) :
  (z1 + (z2 + y) = z2 + (z1 + y))%nat.
Proof. lia. Qed.

Lemma sum_values_empty : sum_values ∅ = 0%nat.
Proof. unfold sum_values. apply map_fold_empty. Qed.

(** Counting one more occurrence of a key adds one to the sum. *)
Lemma sum_values_count_up (k : list N) (d : gmap (list N) nat) :
  sum_values (count_up k d) = S (sum_values d).
Proof.
  unfold count_up, sum_values.
  destruct (d !! k) as [v|] eqn:E; cbn [default].
  - rewrite <- (insert_delete_eq d).
    rewrite map_fold_insert_L;
      [|intros; apply sum_values_comm; assumption|apply lookup_delete_eq].
    rewrite (map_fold_delete_L _ _ k v d);
      [cbn beta; unfold id; lia|intros; apply sum_values_comm; assumption|exact E].
  - rewrite map_fold_insert_L;
      [cbn beta; unfold id; lia|intros; apply sum_values_comm; assumption|exact E].
Qed.

Lemma count_up_lookup (k j : list N) (d : gmap (list N) nat) :
  default 0%nat (count_up k d !! j)
  = (default 0%nat (d !! j) + if decide (k = j) then 1 else 0)%nat.
Proof.
  unfold count_up. rewrite lookup_insert.
  destruct (decide (k = j)) as [->|Hne]; cbn; lia.
Qed.

Section Counting.

Variable key : TestResult -> list N.

Lemma sum_values_fold (rs : list TestResult) : forall d,
    sum_values (fold_left (fun d r => count_up (key r) d) rs d)
    = (sum_values d + length rs)%nat.
Proof.
  induction rs as [|r rs IH]; intros d; cbn [fold_left length]; [lia|].
  rewrite IH, sum_values_count_up. lia.
Qed.

(** Each counter holds the number of results with that key. *)
Lemma lookup_fold (j : list N) (rs : list TestResult) : forall d,
    default 0%nat (fold_left (fun d r => count_up (key r) d) rs d !! j)
    = (default 0%nat (d !! j)
       + length (List.filter (fun r => bool_decide (key r = j)) rs))%nat.
Proof.
  induction rs as [|r rs IH]; intros d; cbn [fold_left List.filter length]; [lia|].
  rewrite IH, count_up_lookup.
  destruct (decide (key r = j)) as [E|E].
  - rewrite (bool_decide_eq_true_2 _ E). cbn [length]. lia.
  - rewrite (bool_decide_eq_false_2 _ E). lia.
Qed.

End Counting.

Lemma server_counts_fold (rs : list TestResult) : forall d,
    d !! [] = None ->
    let d' := fold_left (fun d r => match served_by r with
                                    | [] => d
                                    | _ => count_up (served_by r) d
                                    end) rs d in
    sum_values d' = (sum_values d + length (List.filter has_served_by rs))%nat
    /\ d' !! [] = None.
Proof.
  induction rs as [|r rs IH]; intros d Hd; cbn [fold_left List.filter length].
  - split; [lia|exact Hd].
  - unfold has_served_by at 1. destruct (served_by r) as [|c s] eqn:E.
    + apply IH. exact Hd.
    + destruct (IH (count_up (c :: s) d)) as [Hsum Hnone].
      { unfold count_up. rewrite lookup_insert_ne; [exact Hd|discriminate]. }
      split; [|exact Hnone].
      cbv zeta in Hsum. rewrite Hsum, sum_values_count_up. cbn [length]. lia.
Qed.

Lemma filter_length_le {A} (f : A -> bool) (l : list A) :
  (length (List.filter f l) <= length l)%nat.
Proof. induction l as [|x l IH]; simpl; [lia|]. destruct (f x); simpl; lia. Qed.

Lemma filter_split_length {A} (f : A -> bool) (l : list A) :
  (length (List.filter f l) + length (List.filter (fun x => negb (f x)) l) = length l)%nat.
Proof. induction l as [|x l IH]; simpl; [lia|]. destruct (f x); simpl; lia. Qed.

(** ** [_compute_statistics] *)

Lemma Qlen_zero {A} (l : list A) : Qeq_bool (Qlen l) 0 = true <-> l = [].
Proof.
  rewrite Qeq_bool_iff. unfold Qlen, Qeq. cbn [Qnum Qden inject_Z].
  destruct l; cbn [length]; split; intros H; try reflexivity; try discriminate; lia.
Qed.

(** What a returned statistics record holds. *)
Lemma compute_statistics_inv (self : LoadTestRunner) (d : Q) (st : Stats.t) :
  _compute_statistics self d = inr st ->
  let rs := results self in
  rs <> [] /\ ~ (d == 0)%Q
  /\ Stats.total_requests st = length rs
  /\ Stats.successful st = length (List.filter success rs)
  /\ Stats.failed st = length (List.filter (fun r => negb (success r)) rs)
  /\ Stats.success_rate st
     = (Qlen (List.filter success rs) / Qlen rs * 100)%Q
  /\ Stats.requests_per_sec st = (Qlen rs / d)%Q
  /\ latency_stats (map duration_ms (List.filter success rs)) = inr (Stats.duration_ms st)
  /\ Stats.server_distribution st = server_counts rs
  /\ Stats.repo_distribution st = repo_requests rs
  /\ Stats.errors st = error_counts (List.filter (fun r => negb (success r)) rs).
Proof.
  intros H rs. unfold _compute_statistics, truediv in H. fold rs in H.
  destruct (Qeq_bool (Qlen rs) 0) eqn:E1; [discriminate|].
  destruct (Qeq_bool d 0) eqn:E2; [discriminate|].
  cbn [bind ret] in H.
  destruct (latency_stats _) as [e|lat] eqn:E3; [discriminate|].
  cbn [bind ret] in H. inversion H; subst st; clear H. cbn.
  split. { intros Hnil. apply Qlen_zero in Hnil. congruence. }
  split. { intros Hd. apply Qeq_bool_iff in Hd. congruence. }
  repeat split; reflexivity.
Qed.

(** On a result list that is not empty and a duration that is not zero,
    the statistics are produced. *)
Lemma compute_statistics_returns (self : LoadTestRunner) (d : Q) :
  results self <> [] -> ~ (d == 0)%Q -> exists st, _compute_statistics self d = inr st.
Proof.
  intros Hne Hd. unfold _compute_statistics, truediv.
  destruct (Qeq_bool (Qlen (results self)) 0) eqn:E1.
  { apply Qlen_zero in E1. contradiction. }
  destruct (Qeq_bool d 0) eqn:E2.
  { apply Qeq_bool_iff in E2. contradiction. }
  cbn [bind ret].
  destruct (latency_stats_total (map duration_ms (List.filter success (results self))))
    as [lat ->].
  cbn [bind ret]. eexists. reflexivity.
Qed.

(** The success rate of a returned record lies between 0 and 100. *)
Lemma success_rate_range (self : LoadTestRunner) (d : Q) (st : Stats.t) :
  _compute_statistics self d = inr st ->
  (0 <= Stats.success_rate st <= 100)%Q.
Proof.
  intros H. apply compute_statistics_inv in H. cbv zeta in H.
  destruct H as (Hne & _ & _ & _ & _ & Hrate & _). rewrite Hrate.
  set (rs := results self) in *.
  assert (Hpos : (0 < Qlen rs)%Q).
  { unfold Qlen, Qlt. cbn [Qnum Qden inject_Z]. destruct rs; [congruence|]. cbn [length]. lia. }
  assert (Hle : (Qlen (List.filter success rs) <= Qlen rs)%Q).
  { unfold Qlen. rewrite <- Zle_Qle. apply inj_le, filter_length_le. }
  assert (H0 : (0 <= Qlen (List.filter success rs))%Q).
  { unfold Qlen. change 0%Q with (inject_Z 0). rewrite <- Zle_Qle. lia. }
  split.
  - apply Qmult_le_0_compat; [|discriminate].
    apply Qle_shift_div_l; [assumption|]. now rewrite Qmult_0_l.
  - change 100%Q with (1 * 100)%Q at 2.
    apply Qmult_le_compat_r; [|discriminate].
    apply Qle_shift_div_r; [assumption|]. now rewrite Qmult_1_l.
Qed.

(** C1.  On an empty result list the division behind [success_rate] is
    not guarded: [_compute_statistics] raises [ZeroDivisionError], and so
    does a whole run with one worker and a quota of zero requests. *)
Theorem success_rate_division_unguarded (d : Q) (env : nat -> nat -> draw) :
  _compute_statistics idle_runner d = raise ZeroDivisionError
  /\ run idle_runner env [0%nat] d = (idle_runner, raise ZeroDivisionError).
Proof. split; reflexivity. Qed.

(** C7.  In a returned statistics record the successes and the failures
    add up to the total, the repository counters add up to the total, the
    error counters add up to the failures, and the server counters add up
    to the number of results that name a server: at most the total, with
    no entry under the empty string. *)
Theorem statistics_counts_add_up (self : LoadTestRunner) (d : Q) (st : Stats.t) :
  _compute_statistics self d = inr st ->
  Stats.total_requests st = length (results self)
  /\ (Stats.successful st + Stats.failed st = Stats.total_requests st)%nat
  /\ sum_values (Stats.repo_distribution st) = Stats.total_requests st
  /\ sum_values (Stats.errors st) = Stats.failed st
  /\ sum_values (Stats.server_distribution st)
     = length (List.filter has_served_by (results self))
  /\ (sum_values (Stats.server_distribution st) <= Stats.total_requests st)%nat
  /\ Stats.server_distribution st !! [] = None.
Proof.
  intros H. apply compute_statistics_inv in H. cbv zeta in H.
  destruct H as (_ & _ & Ht & Hs & Hf & _ & _ & _ & Hsrv & Hrepo & Herr).
  rewrite Ht, Hs, Hf, Hsrv, Hrepo, Herr.
  destruct (server_counts_fold (results self) ∅ (lookup_empty _)) as [Hsum Hnone].
  cbv zeta in Hsum, Hnone. fold (server_counts (results self)) in Hsum, Hnone.
  rewrite sum_values_empty in Hsum. cbn [Nat.add] in Hsum.
  split; [reflexivity|].
  split; [apply filter_split_length|].
  split. { unfold repo_requests. rewrite sum_values_fold, sum_values_empty. reflexivity. }
  split. { unfold error_counts. rewrite sum_values_fold, sum_values_empty. reflexivity. }
  split; [exact Hsum|].
  split; [rewrite Hsum; apply filter_length_le|exact Hnone].
Qed.

Lemma statistics_counts_add_up_witness :
  exists st,
    _compute_statistics sample_runner 2 = inr st
    /\ Stats.total_requests st = 3%nat
    /\ (Stats.successful st + Stats.failed st = Stats.total_requests st)%nat
    /\ sum_values (Stats.repo_distribution st) = Stats.total_requests st
    /\ sum_values (Stats.errors st) = Stats.failed st
    /\ sum_values (Stats.server_distribution st) = 1%nat.
Proof.
  destruct (compute_statistics_returns sample_runner 2) as [st Hst];
    [discriminate|discriminate|].
  exists st. split; [exact Hst|].
  destruct (statistics_counts_add_up sample_runner 2 st Hst) as (A & B & C & D & E & _).
  repeat split; assumption.
Defined.

(** Each repository counter is the number of results for that repository,
    each error counter the number of failures with that error. *)
Lemma distribution_counts (self : LoadTestRunner) (d : Q) (st : Stats.t) (k : list N) :
  _compute_statistics self d = inr st ->
  default 0%nat (Stats.repo_distribution st !! k)
  = length (List.filter (fun r => bool_decide (repo r = k)) (results self))
  /\ default 0%nat (Stats.errors st !! k)
     = length (List.filter (fun r => bool_decide (error r = k))
                 (List.filter (fun r => negb (success r)) (results self))).
Proof.
  intros H. apply compute_statistics_inv in H. cbv zeta in H.
  destruct H as (_ & _ & _ & _ & _ & _ & _ & _ & _ & Hrepo & Herr).
  rewrite Hrepo, Herr. unfold repo_requests, error_counts.
  rewrite !lookup_fold, lookup_empty. split; reflexivity.
Qed.

(** ** Workers and the run *)

Lemma random_choice_returns {A} (k : nat) (l : list A) :
  l <> [] -> exists x, random_choice k l = inr x.
Proof.
  intros Hne. unfold random_choice.
  destruct (l !! (k mod length l)%nat) as [x|] eqn:E; [now exists x|].
  apply lookup_ge_None in E.
  assert (length l <> 0)%nat by (destruct l; [congruence|discriminate]).
  pose proof (Nat.mod_upper_bound k (length l)). lia.
Qed.

Lemma fetch_zero_ref_returns (client : GitProtocolV2Client) (post : transport) (repo_path : list N) :
  exists rep, fetch client post repo_path zero_ref = inr rep.
Proof.
  unfold fetch.
  assert (Hp : exists payload, fetch_payload zero_ref = inr payload)
    by (eexists; vm_compute; reflexivity).
  destruct Hp as [payload ->]. cbn [bind].
  destruct (outcome_of (post _)) as [r|e]; [|eexists; reflexivity].
  destruct (negb (status_code r =? 200)%Z); eexists; reflexivity.
Qed.

(** With a repository to choose from, an iteration yields its one
    [TestResult], whatever the network does. *)
Lemma worker_request_returns (self : LoadTestRunner) (client : GitProtocolV2Client) (d : draw) :
  repositories self <> [] -> exists r, worker_request self client d = inr r.
Proof.
  intros Hne. unfold worker_request.
  destruct (random_choice_returns (choice_index d) (repositories self) Hne) as [rp ->].
  cbn [bind]. destruct (Qltb (random_value d) (8 # 10)).
  - destruct (ls_refs client (post_of d) rp) as [[[s t] b] e]. eexists. reflexivity.
  - fold zero_ref.
    destruct (fetch_zero_ref_returns client (post_of d) rp) as [[[[s t] b] e] ->].
    cbn [bind]. eexists. reflexivity.
Qed.

Lemma worker_loop_length (self : LoadTestRunner) (client : GitProtocolV2Client)
    (env : nat -> draw) (iterations : list nat) :
  forall acc rs,
    worker_loop self client env iterations acc = inr rs ->
    length rs = (length acc + length iterations)%nat.
Proof.
  induction iterations as [|i rest IH]; intros acc rs H; cbn [worker_loop] in H.
  - inversion H. cbn [length]. lia.
  - destruct (worker_request self client (env i)) as [e|r]; [discriminate|].
    cbn [bind] in H. apply IH in H. rewrite H, List.length_app. cbn [length]. lia.
Qed.

Lemma worker_loop_returns (self : LoadTestRunner) (client : GitProtocolV2Client)
    (env : nat -> draw) (iterations : list nat) :
  repositories self <> [] ->
  forall acc, exists rs, worker_loop self client env iterations acc = inr rs.
Proof.
  intros Hne. induction iterations as [|i rest IH]; intros acc; cbn [worker_loop].
  - eexists. reflexivity.
  - destruct (worker_request_returns self client (env i) Hne) as [r ->].
    cbn [bind]. apply IH.
Qed.

Lemma range_length (n : Z) : length (range n) = Z.to_nat n.
Proof. unfold range. apply List.length_seq. Qed.

(** A worker that returns hands back exactly its quota of results... *)
Lemma worker_task_length (self : LoadTestRunner) (w : nat) (env : nat -> draw) rs :
  worker_task self w env = inr rs ->
  length rs = Z.to_nat (requests_per_worker self).
Proof.
  unfold worker_task. intros H. apply worker_loop_length in H.
  rewrite H, range_length. reflexivity.
Qed.

(** ...and it does return when there is a repository to choose from. *)
Lemma worker_task_returns (self : LoadTestRunner) (w : nat) (env : nat -> draw) :
  repositories self <> [] -> exists rs, worker_task self w env = inr rs.
Proof. intros Hne. unfold worker_task. now apply worker_loop_returns. Qed.

(** Joining workers that each return [quota] results grows the collection
    by [quota] for each of them, in whatever order they complete. *)
Lemma gather_length (futures : nat -> result (list TestResult)) (quota : nat)
    (completed : list nat) :
  (forall w, exists rs, futures w = inr rs /\ length rs = quota) ->
  forall acc, exists all,
    gather futures completed acc = (all, inr tt)
    /\ length all = (length acc + length completed * quota)%nat.
Proof.
  intros Hf. induction completed as [|w rest IH]; intros acc; cbn [gather].
  - exists acc. split; [reflexivity|]. cbn [length]. lia.
  - destruct (Hf w) as [rs [-> Hlen]].
    destruct (IH (acc ++ rs)) as [all [-> Hall]].
    exists all. split; [reflexivity|].
    rewrite Hall, List.length_app, Hlen. cbn [length]. lia.
Qed.

(** What [run] leaves in [self.results] and hands to the statistics. *)
Lemma run_extends (self : LoadTestRunner) (env : nat -> nat -> draw)
    (completed : list nat) (d : Q) :
  repositories self <> [] ->
  (1 <= num_workers self)%Z ->
  Permutation completed (range (num_workers self)) ->
  exists all,
    run self env completed d
    = (set_results self all, _compute_statistics (set_results self all) d)
    /\ length all
       = (length (results self)
          + Z.to_nat (num_workers self) * Z.to_nat (requests_per_worker self))%nat.
Proof.
  intros Hne HN Hperm. unfold run.
  replace (num_workers self <=? 0)%Z with false by (symmetry; apply Z.leb_gt; lia).
  destruct (gather_length (fun i => worker_task self i (env i))
              (Z.to_nat (requests_per_worker self)) completed) with (acc := results self)
    as [all [-> Hall]].
  { intros w. destruct (worker_task_returns self w (env w) Hne) as [rs Hrs].
    exists rs. split; [exact Hrs|]. now apply worker_task_length in Hrs. }
  exists all. split; [reflexivity|].
  rewrite Hall, (Permutation_length Hperm), range_length. reflexivity.
Qed.



Example run_two_by_five :
  map operation (results (fst (run two_by_five steady [1; 0]%nat 3)))
  = map py ["fetch"; "ls-refs"; "fetch"; "ls-refs"; "fetch";
            "ls-refs"; "fetch"; "ls-refs"; "fetch"; "ls-refs"].
Proof. vm_compute. reflexivity. Qed.

(** The three kinds of failure a request can end in, as [ls_refs] reports
    them. *)
Example ls_refs_failures :
  ls_refs (new_client localhost) (answers 503 "busy" served_by_cache1) golang_go
  = (false, (1 # 100) * 1000, [], py "HTTP 503")%Q
  /\ ls_refs (new_client localhost) (answers 200 "" served_by_cache1) golang_go
     = (false, (1 # 100) * 1000, [], py "Empty response")%Q
  /\ ls_refs (new_client localhost) refuses golang_go
     = (false, (1 # 1000) * 1000, [], py "Connection refused")%Q.
Proof. repeat split. Qed.

(** Outside the hypotheses of [run_collects_all_results]: without a
    repository the first request of a worker raises, and without a worker
    the thread pool refuses to start. *)
Example run_without_repositories :
  snd (run (new_runner localhost [] 1 1 0) steady [0%nat] 1) = raise IndexError.
Proof. reflexivity. Qed.

Example run_without_workers :
  run (new_runner localhost [golang_go] 0 5 0) steady [] 1
  = (new_runner localhost [golang_go] 0 5 0, raise ValueError).
Proof. reflexivity. Qed.

(** * Further properties of the harness *)

(** ** The protocol client: error strings *)

Lemma ls_refs_success_no_error (self : GitProtocolV2Client) (post : transport)
    (repo_path : list N) :
  reply_success (ls_refs self post repo_path) = true ->
  reply_error (ls_refs self post repo_path) = [].
Proof.
  unfold ls_refs. destruct (outcome_of (post _)) as [r|e]; cbn; [|discriminate].
  destruct (status_code r =? 200)%Z; cbn; [|discriminate].
  destruct (String.length (content r) =? 0)%nat; cbn; [discriminate|reflexivity].
Qed.

Lemma fetch_success_no_error (self : GitProtocolV2Client) (post : transport)
    (repo_path want_ref : list N) (rep : reply) :
  fetch self post repo_path want_ref = inr rep ->
  reply_success rep = true -> reply_error rep = [].
Proof.
  unfold fetch.
  destruct (fetch_payload want_ref) as [e|payload]; cbn [bind]; [discriminate|].
  destruct (outcome_of (post _)) as [r|e]; cbn.
  - destruct (status_code r =? 200)%Z; cbn; intros H; inversion H; subst rep; cbn;
      [reflexivity|discriminate].
  - intros H; inversion H; subst rep; cbn. discriminate.
Qed.

(** X3.  A success carries no error string, and a failure that comes from an
    HTTP response (a status other than 200 or, for [ls_refs], an empty
    body) always carries one.  Only a raised exception whose message is
    empty can leave a failure without an error string. *)
Theorem client_error_discipline (self : GitProtocolV2Client) (post : transport)
    (repo_path want_ref : list N) :
  (reply_success (ls_refs self post repo_path) = true ->
   reply_error (ls_refs self post repo_path) = [])
  /\ (forall r,
         outcome_of (post (upload_pack_request self repo_path ls_refs_payload)) = Returned r ->
         reply_success (ls_refs self post repo_path) = false ->
         reply_error (ls_refs self post repo_path) <> [])
  /\ (forall rep, fetch self post repo_path want_ref = inr rep ->
                  reply_success rep = true -> reply_error rep = [])
  /\ (forall payload r rep,
         fetch_payload want_ref = inr payload ->
         outcome_of (post (upload_pack_request self repo_path payload)) = Returned r ->
         fetch self post repo_path want_ref = inr rep ->
         reply_success rep = false -> reply_error rep <> []).
Proof.
  split; [apply ls_refs_success_no_error|].
  split; [|split; [apply fetch_success_no_error|]].
  - intros r Hr. unfold ls_refs. rewrite Hr.
    destruct (status_code r =? 200)%Z; cbn.
    + destruct (String.length (content r) =? 0)%nat; cbn; discriminate.
    + intros _. discriminate.
  - intros payload r rep Hp Hr. unfold fetch. rewrite Hp. cbn [bind]. rewrite Hr.
    destruct (status_code r =? 200)%Z; cbn; intros H; inversion H; subst rep; cbn;
      discriminate.
Qed.

Lemma client_error_discipline_witness :
  reply_error (ls_refs (new_client localhost) (answers 200 "0000" no_headers) golang_go) = []
  /\ reply_error (ls_refs (new_client localhost) (answers 404 "" no_headers) golang_go) <> [].
Proof.
  destruct (client_error_discipline (new_client localhost) (answers 200 "0000" no_headers)
              golang_go zero_ref) as [A _].
  destruct (client_error_discipline (new_client localhost) (answers 404 "" no_headers)
              golang_go zero_ref) as [_ [B _]].
  split.
  - apply A. reflexivity.
  - eapply B; reflexivity.
Defined.

Lemma fetch_success_iff_witness :
  exists rep,
    fetch (new_client localhost) (answers 200 "" no_headers) golang_go zero_ref = inr rep
    /\ reply_success rep = true.
Proof.
  destruct (fetch_zero_ref_returns (new_client localhost) (answers 200 "" no_headers) golang_go)
    as [rep Hrep].
  exists rep. split; [exact Hrep|].
  eapply (fetch_success_iff (new_client localhost) (answers 200 "" no_headers) golang_go
            zero_ref); [reflexivity|exact Hrep|].
  eexists. split; reflexivity.
Defined.

(** ** Workers: what the results record *)

(** What a [TestResult] built by a worker satisfies: it names one of the
    configured repositories and one of the two operations, its operation
    is [ls-refs] exactly when the value drawn from [random.random()] is
    below 0.8, a failure names no server and a success no error. *)
Lemma worker_request_result (self : LoadTestRunner) (client : GitProtocolV2Client)
    (d : draw) (r : TestResult) :
  worker_request self client d = inr r ->
  In (repo r) (repositories self)
  /\ (operation r = if Qltb (random_value d) (8 # 10) then py "ls-refs" else py "fetch")
  /\ (success r = false -> served_by r = [])
  /\ (success r = true -> error r = []).
Proof.
  unfold worker_request, random_choice.
  destruct (repositories self !! (choice_index d mod length (repositories self))%nat)
    as [rp|] eqn:E; cbn [bind ret]; [|discriminate].
  assert (Hin : In rp (repositories self)).
  { apply list_elem_of_In. eapply list_elem_of_lookup_2. exact E. }
  destruct (Qltb (random_value d) (8 # 10)).
  - pose proof (ls_refs_failure_served_by client (post_of d) rp) as Hf.
    pose proof (ls_refs_success_no_error client (post_of d) rp) as He.
    destruct (ls_refs client (post_of d) rp) as [[[s t] b] e].
    cbv beta iota zeta. unfold ret. intros H; injection H as <-; cbn in *.
    repeat split; auto.
  - destruct (fetch client (post_of d) rp (repeat 48%N 40)) as [x|rep] eqn:F;
      cbn [bind ret]; [discriminate|].
    pose proof (fetch_failure_served_by client (post_of d) rp _ rep F) as Hf.
    pose proof (fetch_success_no_error client (post_of d) rp _ rep F) as He.
    destruct rep as [[[s t] b] e].
    cbv beta iota zeta. unfold ret. intros H; injection H as <-; cbn in *.
    repeat split; auto.
Qed.

(** The loop of a worker holds one result per iteration, in the order of
    the iterations: the i-th result is the outcome of the i-th request. *)
Lemma worker_loop_spec (self : LoadTestRunner) (client : GitProtocolV2Client)
    (env : nat -> draw) (iterations : list nat) :
  forall acc rs,
    worker_loop self client env iterations acc = inr rs <->
    exists new, rs = acc ++ new
                /\ Forall2 (fun i r => worker_request self client (env i) = inr r)
                           iterations new.
Proof.
  induction iterations as [|i rest IH]; intros acc rs; cbn [worker_loop].
  - split.
    + intros H; inversion H; subst rs. exists []. split; [now rewrite app_nil_r|constructor].
    + intros [new [-> H]]. inversion H. now rewrite app_nil_r.
  - split.
    + destruct (worker_request self client (env i)) as [e|r] eqn:E; cbn [bind]; [discriminate|].
      intros H. apply IH in H as [new [-> HF]].
      exists (r :: new). split; [now rewrite <- app_assoc|]. now constructor.
    + intros [new [-> HF]]. inversion HF as [|i' r rest' new' Hr HF']; subst.
      rewrite Hr. cbn [bind]. apply IH. exists new'. split; [now rewrite <- app_assoc|exact HF'].
Qed.


(** What the statistics of a run rely on. *)
Lemma worker_results_invariant (self : LoadTestRunner) (w : nat)
    (env : nat -> draw) (rs : list TestResult) :
  worker_task self w env = inr rs ->
  Forall (fun r => In (repo r) (repositories self)
                   /\ (success r = false -> served_by r = [])) rs.
Proof.
  unfold worker_task. intros H. apply worker_loop_spec in H as [new [-> H]].
  cbn [app]. induction H as [|i r its rs' Hr _ IH]; constructor; [|exact IH].
  apply worker_request_result in Hr as (Hin & _ & Hf & _). split; assumption.
Qed.

(** X5.  Every [TestResult] a worker hands back names one of the
    configured repositories and the operation [ls-refs] or [fetch]; if it
    is a failure it names no server, and if it is a success it has no
    error. *)
Theorem worker_task_results_well_formed (self : LoadTestRunner) (w : nat)
    (env : nat -> draw) (rs : list TestResult) :
  worker_task self w env = inr rs ->
  Forall (fun r => In (repo r) (repositories self)
                   /\ (operation r = py "ls-refs" \/ operation r = py "fetch")
                   /\ (success r = false -> served_by r = [])
                   /\ (success r = true -> error r = [])) rs.
Proof.
  unfold worker_task. intros H. apply worker_loop_spec in H as [new [-> H]].
  cbn [app]. induction H as [|i r its rs' Hr _ IH]; constructor; [|exact IH].
  apply worker_request_result in Hr as (Hin & Hop & Hf & Hs).
  repeat split; try assumption.
  rewrite Hop. destruct (Qltb _ _); [now left|now right].
Qed.

Lemma worker_task_results_well_formed_witness :
  exists rs, worker_task two_by_five 0 (steady 0) = inr rs
             /\ Forall (fun r => In (repo r) [golang_go]
                                 /\ (operation r = py "ls-refs" \/ operation r = py "fetch")
                                 /\ (success r = false -> served_by r = [])
                                 /\ (success r = true -> error r = [])) rs.
Proof.
  destruct (worker_task_returns two_by_five 0 (steady 0)) as [rs Hrs]; [discriminate|].
  exists rs. split; [exact Hrs|].
  exact (worker_task_results_well_formed two_by_five 0 (steady 0) rs Hrs).
Defined.

(** A quota that is zero or negative makes a worker return the empty
    list at once, without choosing a repository or sending a request. *)
Theorem worker_task_no_quota (self : LoadTestRunner) (w : nat) (env : nat -> draw) :
  (requests_per_worker self <= 0)%Z -> worker_task self w env = inr [].
Proof.
  intros H. unfold worker_task, range.
  replace (Z.to_nat (requests_per_worker self)) with 0%nat by lia. reflexivity.
Qed.

Lemma worker_task_no_quota_witness :
  worker_task (new_runner localhost [] 3 (-2) 0) 0 (steady 0) = inr [].
Proof. apply worker_task_no_quota. cbn. lia. Defined.

(** ** Dictionaries of counters: what each entry holds *)

Section CountingIf.

Variable key : TestResult -> list N.
Variable keep : TestResult -> bool.

Let step (d : gmap (list N) nat) (r : TestResult) : gmap (list N) nat :=
  if keep r then count_up (key r) d else d.

Let hits (j : list N) (rs : list TestResult) : nat :=
  length (List.filter (fun r => keep r && bool_decide (key r = j)) rs).

Lemma lookup_fold_if (j : list N) (rs : list TestResult) : forall d,
    default 0%nat (fold_left step rs d !! j) = (default 0%nat (d !! j) + hits j rs)%nat.
Proof.
  unfold hits, step.
  induction rs as [|r rs IH]; intros d; cbn [fold_left List.filter length]; [lia|].
  rewrite IH. destruct (keep r); cbn [andb]; [|lia].
  rewrite count_up_lookup.
  destruct (decide (key r = j)) as [E|E].
  - rewrite (bool_decide_eq_true_2 _ E). cbn [length]. lia.
  - rewrite (bool_decide_eq_false_2 _ E). lia.
Qed.

(** Counters never hold zero. *)
Lemma fold_positive (rs : list TestResult) : forall d,
    (forall j v, d !! j = Some v -> (0 < v)%nat) ->
    forall j v, fold_left step rs d !! j = Some v -> (0 < v)%nat.
Proof.
  unfold step.
  induction rs as [|r rs IH]; intros d Hd j v; cbn [fold_left]; [apply Hd|].
  apply IH. intros j' v'. destruct (keep r); [|apply Hd].
  unfold count_up. rewrite lookup_insert.
  destruct (decide (key r = j')); [|apply Hd].
  intros H; inversion H. lia.
Qed.

(** A dictionary built from the empty one holds, under each key, the
    number of kept results with that key, and no entry for a key that no
    kept result has. *)
Lemma fold_entry (j : list N) (v : nat) (rs : list TestResult) :
  fold_left step rs ∅ !! j = Some v <-> (0 < v)%nat /\ v = hits j rs.
Proof.
  pose proof (lookup_fold_if j rs ∅) as Hc. rewrite lookup_empty in Hc. cbn in Hc.
  split.
  - intros H. split.
    + eapply (fold_positive rs ∅); [|exact H]. intros j' v'. rewrite lookup_empty. discriminate.
    + rewrite H in Hc. exact Hc.
  - intros [Hpos ->]. destruct (fold_left step rs ∅ !! j) as [v|] eqn:E; cbn in Hc.
    + now rewrite Hc.
    + lia.
Qed.

End CountingIf.

Lemma filter_filter_andb {A} (f g : A -> bool) (l : list A) :
  List.filter f (List.filter g l) = List.filter (fun x => g x && f x) l.
Proof.
  induction l as [|x l IH]; cbn [List.filter]; [reflexivity|].
  destruct (g x); cbn [List.filter andb]; [|exact IH].
  destruct (f x); now rewrite IH.
Qed.

Lemma server_counts_as_fold (rs : list TestResult) :
  server_counts rs
  = fold_left (fun d r => if has_served_by r then count_up (served_by r) d else d) rs ∅.
Proof.
  unfold server_counts. generalize (∅ : gmap (list N) nat).
  induction rs as [|r rs IH]; intros d; cbn [fold_left]; [reflexivity|].
  rewrite IH. unfold has_served_by. destruct (served_by r); reflexivity.
Qed.

(** X14.  In the statistics, the entry of a repository is the number of
    results for it, the entry of an error string the number of failed
    results with that error, and the entry of a server the number of
    results it served.  No entry holds zero, and a key without matching
    result has no entry. *)
Theorem distribution_entries (self : LoadTestRunner) (d : Q) (st : Stats.t)
    (k : list N) (v : nat) :
  _compute_statistics self d = inr st ->
  (Stats.repo_distribution st !! k = Some v <->
   (0 < v)%nat
   /\ v = length (List.filter (fun r => bool_decide (repo r = k)) (results self)))
  /\ (Stats.errors st !! k = Some v <->
      (0 < v)%nat
      /\ v = length (List.filter (fun r => negb (success r) && bool_decide (error r = k))
                       (results self)))
  /\ (Stats.server_distribution st !! k = Some v <->
      (0 < v)%nat
      /\ v = length (List.filter (fun r => has_served_by r && bool_decide (served_by r = k))
                       (results self))).
Proof.
  intros H. apply compute_statistics_inv in H. cbv zeta in H.
  destruct H as (_ & _ & _ & _ & _ & _ & _ & _ & Hsrv & Hrepo & Herr).
  rewrite Hrepo, Herr, Hsrv. split; [|split].
  - apply (fold_entry repo (fun _ => true)).
  - unfold error_counts.
    rewrite (fold_entry error (fun _ => true) k v).
    cbn [andb]. rewrite filter_filter_andb. reflexivity.
  - rewrite server_counts_as_fold. apply (fold_entry served_by has_served_by).
Qed.

Lemma distribution_entries_witness :
  exists st, _compute_statistics sample_runner 2 = inr st
             /\ Stats.repo_distribution st !! golang_go = Some 2%nat
             /\ Stats.errors st !! py "HTTP 503" = Some 1%nat
             /\ Stats.server_distribution st !! py "cache-1" = Some 1%nat.
Proof.
  destruct (compute_statistics_returns sample_runner 2) as [st Hst];
    [discriminate|discriminate|].
  exists st. split; [exact Hst|].
  split; [|split].
  - apply (distribution_entries sample_runner 2 st golang_go 2 Hst). split; [lia|reflexivity].
  - apply (distribution_entries sample_runner 2 st (py "HTTP 503") 1 Hst).
    split; [lia|reflexivity].
  - apply (distribution_entries sample_runner 2 st (py "cache-1") 1 Hst).
    split; [lia|reflexivity].
Defined.

(** ** The success rate and the exit code *)

Lemma Qlen_pos {A} (l : list A) : l <> [] -> (0 < Qlen l)%Q.
Proof.
  intros H. unfold Qlen, Qlt. cbn [Qnum Qden inject_Z].
  destruct l; [congruence|]. cbn [length]. lia.
Qed.

Lemma Qpos_neq0 (q : Q) : (0 < q)%Q -> ~ (q == 0)%Q.
Proof. intros Hp H0. rewrite H0 in Hp. now apply Qlt_irrefl in Hp. Qed.

(** Comparing [s / t * 100] with an integer is comparing integers. *)
Lemma rate_ge {A} (c : Z) (s t : list A) :
  t <> [] ->
  (inject_Z c <= Qlen s / Qlen t * 100)%Q
  <-> (c * Z.of_nat (length t) <= 100 * Z.of_nat (length s))%Z.
Proof.
  intros Ht. pose proof (Qlen_pos t Ht) as Hp.
  assert (E : (Qlen s / Qlen t * 100 == (Qlen s * 100) / Qlen t)%Q)
    by (field; now apply Qpos_neq0).
  rewrite E. split.
  - intros H. apply (Qmult_le_compat_r _ _ (Qlen t)) in H; [|now apply Qlt_le_weak].
    rewrite Qmult_comm, (Qmult_comm (_ / _)), Qmult_div_r in H by now apply Qpos_neq0.
    unfold Qlen in H. change 100%Q with (inject_Z 100) in H.
    rewrite <- !inject_Z_mult, <- Zle_Qle in H. lia.
  - intros H. apply Qle_shift_div_l; [assumption|].
    unfold Qlen. change 100%Q with (inject_Z 100).
    rewrite <- !inject_Z_mult, <- Zle_Qle. lia.
Qed.

Lemma rate_le {A} (c : Z) (s t : list A) :
  t <> [] ->
  (Qlen s / Qlen t * 100 <= inject_Z c)%Q
  <-> (100 * Z.of_nat (length s) <= c * Z.of_nat (length t))%Z.
Proof.
  intros Ht. pose proof (Qlen_pos t Ht) as Hp.
  assert (E : (Qlen s / Qlen t * 100 == (Qlen s * 100) / Qlen t)%Q)
    by (field; now apply Qpos_neq0).
  rewrite E. split.
  - intros H. apply (Qmult_le_compat_r _ _ (Qlen t)) in H; [|now apply Qlt_le_weak].
    rewrite (Qmult_comm (_ / _)), Qmult_div_r in H by now apply Qpos_neq0.
    unfold Qlen in H. change 100%Q with (inject_Z 100) in H.
    rewrite <- !inject_Z_mult, <- Zle_Qle in H. lia.
  - intros H. apply Qle_shift_div_r; [assumption|].
    unfold Qlen. change 100%Q with (inject_Z 100).
    rewrite <- !inject_Z_mult, <- Zle_Qle. lia.
Qed.

(** X15.  The success rate of returned statistics lies between 0 and
    100; it is 100 exactly when no request failed and 0 exactly when none
    succeeded. *)
Theorem success_rate_thresholds (self : LoadTestRunner) (d : Q) (st : Stats.t) :
  _compute_statistics self d = inr st ->
  (0 <= Stats.success_rate st <= 100)%Q
  /\ ((Stats.success_rate st == 100)%Q <-> Stats.failed st = 0%nat)
  /\ ((Stats.success_rate st == 0)%Q <-> Stats.successful st = 0%nat).
Proof.
  intros H. pose proof (success_rate_range self d st H) as [Hlo Hhi].
  apply compute_statistics_inv in H. cbv zeta in H.
  destruct H as (Hne & _ & Ht & Hs & Hf & Hrate & _).
  pose proof (filter_split_length success (results self)) as Hsplit.
  rewrite Hrate in *. rewrite Hs, Hf.
  split; [split; assumption|]. split.
  - split.
    + intros E. assert (Hge : (inject_Z 100 <= Qlen (List.filter success (results self))
                                             / Qlen (results self) * 100)%Q)
        by (rewrite E; apply Qle_refl).
      apply rate_ge in Hge; [lia|assumption].
    + intros Hz. apply Qle_antisym; [exact Hhi|].
      apply (rate_ge 100); [assumption|lia].
  - split.
    + intros E. assert (Hle : (Qlen (List.filter success (results self))
                               / Qlen (results self) * 100 <= inject_Z 0)%Q)
        by (rewrite E; apply Qle_refl).
      apply rate_le in Hle; [lia|assumption].
    + intros Hz. apply Qle_antisym; [|exact Hlo].
      apply (rate_le 0); [assumption|lia].
Qed.

Lemma success_rate_thresholds_witness :
  exists st, _compute_statistics sample_runner 2 = inr st
             /\ (0 <= Stats.success_rate st <= 100)%Q
             /\ ~ (Stats.success_rate st == 100)%Q.
Proof.
  destruct (compute_statistics_returns sample_runner 2) as [st Hst];
    [discriminate|discriminate|].
  exists st. split; [exact Hst|].
  destruct (success_rate_thresholds sample_runner 2 st Hst) as (R & A & _).
  pose proof (compute_statistics_inv sample_runner 2 st Hst) as Hinv. cbv zeta in Hinv.
  destruct Hinv as (_ & _ & _ & _ & Hf & _).
  split; [exact R|].
  intros E. apply A in E. rewrite Hf in E. discriminate.
Defined.

(** X16.  The process exits with 0 exactly when at most one request in
    twenty failed, and with 1 otherwise. *)
Theorem exit_code_threshold (self : LoadTestRunner) (d : Q) (st : Stats.t) :
  _compute_statistics self d = inr st ->
  exit_code st = if (20 * Stats.failed st <=? Stats.total_requests st)%nat then 0%Z else 1%Z.
Proof.
  intros H. apply compute_statistics_inv in H. cbv zeta in H.
  destruct H as (Hne & _ & Ht & Hs & Hf & Hrate & _).
  pose proof (filter_split_length success (results self)) as Hsplit.
  pose proof (rate_ge 95 (List.filter success (results self)) (results self) Hne) as Hc.
  change (inject_Z 95) with 95%Q in Hc.
  unfold exit_code. rewrite Hrate, Ht, Hf.
  destruct (Qle_bool 95 _) eqn:E.
  - apply Qle_bool_iff, Hc in E.
    destruct (Nat.leb_spec (20 * length (List.filter (fun r => negb (success r)) (results self)))
                (length (results self))); [reflexivity|lia].
  - destruct (Nat.leb_spec (20 * length (List.filter (fun r => negb (success r)) (results self)))
                (length (results self))); [|reflexivity].
    assert (Hq : (95 <= Qlen (List.filter success (results self))
                        / Qlen (results self) * 100)%Q) by (apply Hc; lia).
    apply Qle_bool_iff in Hq. congruence.
Qed.

Lemma exit_code_threshold_witness :
  exists st, _compute_statistics sample_runner 2 = inr st /\ exit_code st = 1%Z.
Proof.
  destruct (compute_statistics_returns sample_runner 2) as [st Hst];
    [discriminate|discriminate|].
  exists st. split; [exact Hst|].
  rewrite (exit_code_threshold sample_runner 2 st Hst).
  pose proof (compute_statistics_inv sample_runner 2 st Hst) as Hinv. cbv zeta in Hinv.
  destruct Hinv as (_ & _ & Ht & _ & Hf & _).
  rewrite Ht, Hf. reflexivity.
Defined.

(** The binary64 test of the source gives the same verdict as the exact
    one, checked for every result count up to 300 and every number of
    successes. *)
Lemma binary64_exit_agrees :
  forallb (fun total => forallb (Binary64Rate.agrees total) (seq 0 (S total))) (seq 1 300)
  = true.
Proof. vm_compute. reflexivity. Qed.

(** ** Latency statistics: how the entries relate *)

Lemma Qltb_true (a b : Q) : Qltb a b = true -> (a < b)%Q.
Proof.
  unfold Qltb. intros H. apply Qnot_le_lt. intros Hle.
  apply Qle_bool_iff in Hle. rewrite Hle in H. discriminate.
Qed.

Lemma Qltb_false (a b : Q) : Qltb a b = false -> (b <= a)%Q.
Proof.
  unfold Qltb. intros H. apply Qle_bool_iff.
  destruct (Qle_bool b a); [reflexivity|discriminate].
Qed.

Lemma fold_min_spec (l : list Q) : forall a,
    let m := fold_left (fun m y => if Qltb y m then y else m) l a in
    (m = a \/ In m l) /\ (m <= a)%Q /\ (forall y, In y l -> (m <= y)%Q).
Proof.
  induction l as [|x l IH]; intros a; cbn [fold_left].
  - cbv zeta. split; [now left|]. split; [apply Qle_refl|intros y []].
  - cbv zeta. destruct (Qltb x a) eqn:E.
    + destruct (IH x) as (Hin & Hle & Hall). cbv zeta in *.
      apply Qltb_true in E.
      split; [right; destruct Hin as [->|Hin]; [now left|now right]|].
      split; [apply Qle_trans with x; [exact Hle|now apply Qlt_le_weak]|].
      intros y [<-|Hy]; [exact Hle|now apply Hall].
    + destruct (IH a) as (Hin & Hle & Hall). cbv zeta in *.
      apply Qltb_false in E.
      split; [destruct Hin as [->|Hin]; [now left|right; now right]|].
      split; [exact Hle|].
      intros y [<-|Hy]; [now apply Qle_trans with a|now apply Hall].
Qed.

Lemma fold_max_spec (l : list Q) : forall a,
    let m := fold_left (fun m y => if Qltb m y then y else m) l a in
    (m = a \/ In m l) /\ (a <= m)%Q /\ (forall y, In y l -> (y <= m)%Q).
Proof.
  induction l as [|x l IH]; intros a; cbn [fold_left].
  - cbv zeta. split; [now left|]. split; [apply Qle_refl|intros y []].
  - cbv zeta. destruct (Qltb a x) eqn:E.
    + destruct (IH x) as (Hin & Hle & Hall). cbv zeta in *.
      apply Qltb_true in E.
      split; [right; destruct Hin as [->|Hin]; [now left|now right]|].
      split; [apply Qle_trans with x; [now apply Qlt_le_weak|exact Hle]|].
      intros y [<-|Hy]; [exact Hle|now apply Hall].
    + destruct (IH a) as (Hin & Hle & Hall). cbv zeta in *.
      apply Qltb_false in E.
      split; [destruct Hin as [->|Hin]; [now left|right; now right]|].
      split; [exact Hle|].
      intros y [<-|Hy]; [now apply Qle_trans with a|now apply Hall].
Qed.

Lemma py_min_spec (l : list Q) (m : Q) :
  py_min l = inr m -> In m l /\ (forall y, In y l -> (m <= y)%Q).
Proof.
  destruct l as [|x l]; cbn [py_min]; [discriminate|].
  intros H; injection H as <-.
  destruct (fold_min_spec l x) as (Hin & Hle & Hall). cbv zeta in *.
  split; [destruct Hin as [->|Hin]; [now left|now right]|].
  intros y [<-|Hy]; [exact Hle|now apply Hall].
Qed.

Lemma py_max_spec (l : list Q) (m : Q) :
  py_max l = inr m -> In m l /\ (forall y, In y l -> (y <= m)%Q).
Proof.
  destruct l as [|x l]; cbn [py_max]; [discriminate|].
  intros H; injection H as <-.
  destruct (fold_max_spec l x) as (Hin & Hle & Hall). cbv zeta in *.
  split; [destruct Hin as [->|Hin]; [now left|now right]|].
  intros y [<-|Hy]; [exact Hle|now apply Hall].
Qed.

(** The entries of the latency dictionary of a list that is not empty
    are what the six expressions of the source return. *)
Lemma latency_stats_inv (durations : list Q) (lat : Stats.latency) :
  durations <> [] ->
  latency_stats durations = inr lat ->
  py_min durations = inr (Stats.min lat)
  /\ py_max durations = inr (Stats.max lat)
  /\ mean durations = inr (Stats.mean lat)
  /\ median durations = inr (Stats.median lat)
  /\ percentile durations (95 # 100) = inr (Stats.p95 lat)
  /\ percentile durations (99 # 100) = inr (Stats.p99 lat).
Proof.
  destruct durations as [|d ds]; [congruence|]. intros _.
  unfold latency_stats. rewrite !if_durations_cons.
  destruct (py_min (d :: ds)) as [e|lo]; cbn [bind]; [discriminate|].
  destruct (py_max (d :: ds)) as [e|hi]; cbn [bind]; [discriminate|].
  destruct (mean (d :: ds)) as [e|avg]; cbn [bind]; [discriminate|].
  destruct (median (d :: ds)) as [e|med]; cbn [bind]; [discriminate|].
  destruct (percentile (d :: ds) (95 # 100)) as [e|x]; cbn [bind]; [discriminate|].
  destruct (percentile (d :: ds) (99 # 100)) as [e|y]; cbn [bind]; [discriminate|].
  intros H; injection H as <-. cbn. repeat split; reflexivity.
Qed.

Lemma latency_min_max_bounds (durations : list Q) (lat : Stats.latency) :
  durations <> [] ->
  latency_stats durations = inr lat ->
  forall x, In x durations -> (Stats.min lat <= x <= Stats.max lat)%Q.
Proof.
  intros Hne H. destruct (latency_stats_inv durations lat Hne H) as (Hmin & Hmax & _).
  apply py_min_spec in Hmin as [_ Hlo]. apply py_max_spec in Hmax as [_ Hhi].
  intros x Hx. split; [now apply Hlo|now apply Hhi].
Qed.

(** X17.  On a list of latencies that is not empty, [min] and [max] are
    latencies of the list, and every latency lies between them. *)
Theorem latency_min_max_extreme (durations : list Q) (lat : Stats.latency) :
  durations <> [] ->
  latency_stats durations = inr lat ->
  In (Stats.min lat) durations
  /\ In (Stats.max lat) durations
  /\ (forall x, In x durations -> (Stats.min lat <= x <= Stats.max lat)%Q).
Proof.
  intros Hne H. destruct (latency_stats_inv durations lat Hne H) as (Hmin & Hmax & _).
  apply py_min_spec in Hmin as [Hin1 Hlo]. apply py_max_spec in Hmax as [Hin2 Hhi].
  split; [exact Hin1|]. split; [exact Hin2|].
  intros x Hx. split; [now apply Hlo|now apply Hhi].
Qed.

Lemma latency_min_max_extreme_witness :
  exists lat, latency_stats [30; 10; 50; 20; 40]%Q = inr lat
              /\ (Stats.min lat <= 20 <= Stats.max lat)%Q.
Proof.
  destruct (latency_stats_total [30; 10; 50; 20; 40]%Q) as [lat Hlat].
  exists lat. split; [exact Hlat|].
  destruct (latency_min_max_extreme [30; 10; 50; 20; 40]%Q lat) as (_ & _ & H);
    [discriminate|exact Hlat|].
  apply H. cbn. tauto.
Defined.

Lemma strongly_sorted_lookup (l : list Q) :
  StronglySorted Qle l ->
  forall i j x y, (i <= j)%nat -> l !! i = Some x -> l !! j = Some y -> (x <= y)%Q.
Proof.
  induction 1 as [|a l Hs IH Hall]; intros i j x y Hij Hi Hj.
  - rewrite lookup_nil in Hi. discriminate.
  - destruct i as [|i], j as [|j]; cbn in Hi, Hj.
    + injection Hi as <-. injection Hj as <-. apply Qle_refl.
    + injection Hi as <-. rewrite List.Forall_forall in Hall. apply Hall.
      apply list_elem_of_In. eapply list_elem_of_lookup_2. exact Hj.
    + lia.
    + apply (IH i j); [lia|assumption|assumption].
Qed.

Lemma sorted_lookup_mono (durations : list Q) (i j : nat) (x y : Q) :
  (i <= j)%nat -> sorted durations !! i = Some x -> sorted durations !! j = Some y ->
  (x <= y)%Q.
Proof.
  apply strongly_sorted_lookup.
  apply Sorted_StronglySorted; [exact Qle_trans|apply sorted_ascending].
Qed.

Lemma sorted_lookup_In (durations : list Q) (i : nat) (x : Q) :
  sorted durations !! i = Some x -> In x durations.
Proof.
  intros H. apply (Permutation_in x (Permutation_sym (sorted_perm durations))).
  apply list_elem_of_In. eapply list_elem_of_lookup_2. exact H.
Qed.

Lemma percentile_lookup (durations : list Q) (a : positive) (x : Q) :
  durations <> [] -> (Zpos a < 100)%Z ->
  percentile durations (Zpos a # 100) = inr x ->
  sorted durations !! (length durations * Pos.to_nat a / 100)%nat = Some x.
Proof.
  intros Hne Ha H.
  destruct (percentile_returns durations a Hne Ha) as [x' [Hx' Hp]].
  rewrite Hp in H. injection H as <-. exact Hx'.
Qed.

(** X18.  The percentiles are ordered and lie within the range of the
    latencies: [min <= p95 <= p99 <= max]. *)
Theorem percentiles_ordered (durations : list Q) (lat : Stats.latency) :
  durations <> [] ->
  latency_stats durations = inr lat ->
  (Stats.min lat <= Stats.p95 lat)%Q
  /\ (Stats.p95 lat <= Stats.p99 lat)%Q
  /\ (Stats.p99 lat <= Stats.max lat)%Q.
Proof.
  intros Hne H.
  pose proof (latency_min_max_bounds durations lat Hne H) as Hb.
  destruct (latency_stats_inv durations lat Hne H) as (_ & _ & _ & _ & H95 & H99).
  apply (percentile_lookup durations 95 _ Hne eq_refl) in H95.
  apply (percentile_lookup durations 99 _ Hne eq_refl) in H99.
  split; [apply Hb; eapply sorted_lookup_In; exact H95|].
  split; [|apply Hb; eapply sorted_lookup_In; exact H99].
  eapply sorted_lookup_mono; [|exact H95|exact H99].
  apply Nat.Div0.div_le_mono. change (Pos.to_nat 95) with 95%nat.
  change (Pos.to_nat 99) with 99%nat. lia.
Qed.

Lemma percentiles_ordered_witness :
  exists lat, latency_stats [30; 10; 50; 20; 40]%Q = inr lat
              /\ (Stats.min lat <= Stats.p95 lat)%Q
              /\ (Stats.p95 lat <= Stats.p99 lat)%Q
              /\ (Stats.p99 lat <= Stats.max lat)%Q.
Proof.
  destruct (latency_stats_total [30; 10; 50; 20; 40]%Q) as [lat Hlat].
  exists lat. split; [exact Hlat|].
  apply (percentiles_ordered [30; 10; 50; 20; 40]%Q lat); [discriminate|exact Hlat].
Defined.

Lemma getitem_In {A} (l : list A) (i : Z) (x : A) : getitem l i = inr x -> In x l.
Proof.
  unfold getitem.
  destruct (_ <? 0)%Z; [discriminate|].
  destruct (l !! _) as [y|] eqn:E; [|discriminate].
  intros H; injection H as <-.
  apply list_elem_of_In. eapply list_elem_of_lookup_2. exact E.
Qed.

Lemma Qlen_cons {A} (x : A) (l : list A) : (Qlen (x :: l) == Qlen l + 1)%Q.
Proof.
  unfold Qlen. cbn [length]. rewrite Nat2Z.inj_succ, <- Z.add_1_r, inject_Z_plus.
  reflexivity.
Qed.

Lemma Qsum_bounds (lo hi : Q) (l : list Q) :
  (forall x, In x l -> (lo <= x <= hi)%Q) ->
  forall a, (a + Qlen l * lo <= fold_left Qplus l a <= a + Qlen l * hi)%Q.
Proof.
  induction l as [|x l IH]; intros Hb a; cbn [fold_left].
  - assert (E : (Qlen (@nil Q) == 0)%Q) by reflexivity. rewrite E. lra.
  - destruct (Hb x (or_introl eq_refl)) as [Hlo Hhi].
    destruct (IH (fun y Hy => Hb y (or_intror Hy)) (a + x)%Q) as [H1 H2].
    rewrite Qlen_cons. lra.
Qed.

(** X19.  The mean and the median lie within the range of the latencies. *)
Theorem mean_median_within_range (durations : list Q) (lat : Stats.latency) :
  durations <> [] ->
  latency_stats durations = inr lat ->
  (Stats.min lat <= Stats.mean lat <= Stats.max lat)%Q
  /\ (Stats.min lat <= Stats.median lat <= Stats.max lat)%Q.
Proof.
  intros Hne H.
  pose proof (latency_min_max_bounds durations lat Hne H) as Hb.
  destruct (latency_stats_inv durations lat Hne H) as (_ & _ & Hmean & Hmed & _).
  split.
  - destruct durations as [|d ds]; [congruence|].
    cbn [mean] in Hmean. injection Hmean as Hmean. rewrite <- Hmean.
    pose proof (Qlen_pos (d :: ds) Hne) as Hp.
    destruct (Qsum_bounds _ _ (d :: ds) Hb 0%Q) as [H1 H2]. fold (Qsum (d :: ds)) in H1, H2.
    split.
    + apply Qle_shift_div_l; [exact Hp|]. lra.
    + apply Qle_shift_div_r; [exact Hp|]. lra.
  - unfold median in Hmed.
    assert (Hs : forall x, In x (sorted durations) ->
                           (Stats.min lat <= x <= Stats.max lat)%Q).
    { intros x Hx. apply Hb.
      apply (Permutation_in x (Permutation_sym (sorted_perm durations)) Hx). }
    destruct (length (sorted durations) =? 0)%nat; [discriminate|].
    destruct (length (sorted durations) mod 2 =? 1)%nat.
    + apply getitem_In in Hmed. now apply Hs.
    + destruct (getitem (sorted durations) _) as [e|a] eqn:Ea; cbn [bind] in Hmed;
        [discriminate|].
      destruct (getitem (sorted durations) _) as [e|b] eqn:Eb in Hmed; cbn [bind] in Hmed;
        [discriminate|].
      injection Hmed as Hmed. rewrite <- Hmed.
      apply getitem_In in Ea, Eb. apply Hs in Ea, Eb.
      split.
      * apply Qle_shift_div_l; [reflexivity|]. lra.
      * apply Qle_shift_div_r; [reflexivity|]. lra.
Qed.

Lemma mean_median_within_range_witness :
  exists lat, latency_stats [30; 10; 50; 20]%Q = inr lat
              /\ (Stats.min lat <= Stats.mean lat <= Stats.max lat)%Q
              /\ (Stats.min lat <= Stats.median lat <= Stats.max lat)%Q.
Proof.
  destruct (latency_stats_total [30; 10; 50; 20]%Q) as [lat Hlat].
  exists lat. split; [exact Hlat|].
  apply (mean_median_within_range [30; 10; 50; 20]%Q lat); [discriminate|exact Hlat].
Defined.

(** ** The run: joining the workers *)

(** When every worker is joined without an exception, the collection is
    extended by the workers' lists in completion order. *)
Lemma gather_joined (futures : nat -> result (list TestResult)) (completed : list nat) :
  forall acc all,
    gather futures completed acc = (all, inr tt) <->
    Forall (fun w => exists rs, futures w = inr rs) completed
    /\ all = acc ++ flat_map (fun w => future_result (futures w)) completed.
Proof.
  induction completed as [|w rest IH]; intros acc all; cbn [gather flat_map].
  - rewrite app_nil_r. split.
    + intros H; injection H as <-. split; [constructor|reflexivity].
    + intros [_ ->]. reflexivity.
  - destruct (futures w) as [e|rs] eqn:E; cbn [future_result].
    + split; [discriminate|]. intros [H _]. inversion H as [|? ? Hex _].
      destruct Hex as [rs Hrs]. congruence.
    + rewrite IH, app_assoc. split.
      * intros [HF ->]. split; [|reflexivity]. constructor; [now exists rs|exact HF].
      * intros [HF ->]. split; [|reflexivity]. now inversion HF.
Qed.

(** What [gather] leaves in the collection always starts with what was
    there, whether a worker raised or not. *)
Lemma gather_Forall (P : TestResult -> Prop) (futures : nat -> result (list TestResult))
    (completed : list nat) :
  (forall w rs, futures w = inr rs -> Forall P rs) ->
  forall acc, Forall P acc -> Forall P (fst (gather futures completed acc)).
Proof.
  intros Hf. induction completed as [|w rest IH]; intros acc Hacc; cbn [gather]; [exact Hacc|].
  destruct (futures w) as [e|rs] eqn:E; [exact Hacc|].
  apply IH. apply Forall_app. split; [exact Hacc|now apply (Hf w)].
Qed.

(** [run] either stops at the pool, or joins the workers and, if none
    raised, computes the statistics of the extended collection. *)
Lemma run_returns_inv (self : LoadTestRunner) (env : nat -> nat -> draw)
    (completed : list nat) (d : Q) (st : Stats.t) :
  snd (run self env completed d) = inr st ->
  let all := results self
             ++ flat_map (fun w => future_result (worker_task self w (env w))) completed in
  (1 <= num_workers self)%Z
  /\ Forall (fun w => exists rs, worker_task self w (env w) = inr rs) completed
  /\ fst (run self env completed d) = set_results self all
  /\ _compute_statistics (set_results self all) d = inr st.
Proof.
  unfold run. destruct (Z.leb_spec (num_workers self) 0) as [HN|HN]; [discriminate|].
  destruct (gather _ completed (results self)) as [rs joined] eqn:G.
  cbn [fst snd]. destruct joined as [e|[]]; cbn [bind]; [discriminate|].
  apply gather_joined in G as [HF ->].
  intros H. cbv zeta. split; [lia|]. split; [exact HF|]. split; [reflexivity|exact H].
Qed.




(** ** The run: the order of completion *)

Lemma fold_left_perm {A B} (f : B -> A -> B) (l l' : list A) :
  (forall b x y, f (f b x) y = f (f b y) x) ->
  Permutation l l' -> forall b, fold_left f l b = fold_left f l' b.
Proof.
  intros Hc. induction 1 as [|x l l' _ IH|x y l|l l' l'' _ IH1 _ IH2]; intros b;
    cbn [fold_left].
  - reflexivity.
  - apply IH.
  - now rewrite Hc.
  - now rewrite IH1.
Qed.

Lemma filter_perm {A} (f : A -> bool) (l l' : list A) :
  Permutation l l' -> Permutation (List.filter f l) (List.filter f l').
Proof.
  induction 1 as [|x l l' _ IH|x y l|l l' l'' _ IH1 _ IH2]; cbn [List.filter].
  - reflexivity.
  - destruct (f x); [now apply perm_skip|exact IH].
  - destruct (f x), (f y); try reflexivity. apply perm_swap.
  - now transitivity (List.filter f l').
Qed.

Lemma count_up_comm (k1 k2 : list N) (d : gmap (list N) nat) :
  count_up k1 (count_up k2 d) = count_up k2 (count_up k1 d).
Proof.
  unfold count_up. destruct (decide (k1 = k2)) as [->|Hne]; [reflexivity|].
  rewrite !lookup_insert_ne by congruence.
  apply insert_insert_ne. congruence.
Qed.

(** The counters depend on the results collected, not on their order. *)
Lemma counters_perm (rs rs' : list TestResult) :
  Permutation rs rs' ->
  length rs = length rs'
  /\ length (List.filter success rs) = length (List.filter success rs')
  /\ length (List.filter (fun r => negb (success r)) rs)
     = length (List.filter (fun r => negb (success r)) rs')
  /\ server_counts rs = server_counts rs'
  /\ repo_requests rs = repo_requests rs'
  /\ error_counts (List.filter (fun r => negb (success r)) rs)
     = error_counts (List.filter (fun r => negb (success r)) rs').
Proof.
  intros Hp.
  split; [now apply Permutation_length|].
  split; [now apply Permutation_length, filter_perm|].
  split; [now apply Permutation_length, filter_perm|].
  split; [|split].
  - unfold server_counts. apply fold_left_perm; [|exact Hp].
    intros b x y. destruct (served_by x), (served_by y); try reflexivity.
    apply count_up_comm.
  - unfold repo_requests. apply fold_left_perm; [|exact Hp].
    intros b x y. apply count_up_comm.
  - unfold error_counts. apply fold_left_perm; [|now apply filter_perm].
    intros b x y. apply count_up_comm.
Qed.

(** X7.  The order in which the workers complete does not change the
    counters.  If a run returns statistics under one completion order it
    returns statistics under every other, with the same totals, success
    rate, throughput and the same three distributions. *)
Theorem run_counters_order_independent (self : LoadTestRunner) (env : nat -> nat -> draw)
    (order order' : list nat) (d : Q) (st : Stats.t) :
  Permutation order order' ->
  snd (run self env order d) = inr st ->
  exists st',
    snd (run self env order' d) = inr st'
    /\ Stats.total_requests st' = Stats.total_requests st
    /\ Stats.successful st' = Stats.successful st
    /\ Stats.failed st' = Stats.failed st
    /\ Stats.success_rate st' = Stats.success_rate st
    /\ Stats.requests_per_sec st' = Stats.requests_per_sec st
    /\ Stats.server_distribution st' = Stats.server_distribution st
    /\ Stats.repo_distribution st' = Stats.repo_distribution st
    /\ Stats.errors st' = Stats.errors st.
Proof.
  intros Hp H. apply run_returns_inv in H. cbv zeta in H.
  destruct H as (HN & HF & _ & Hst).
  set (g := fun w => future_result (worker_task self w (env w))) in *.
  assert (Hperm : Permutation (results self ++ flat_map g order)
                              (results self ++ flat_map g order')).
  { apply Permutation_app_head. now apply Permutation_flat_map. }
  apply compute_statistics_inv in Hst. cbv zeta in Hst. cbn [results set_results] in Hst.
  destruct Hst as (Hne & Hd & Ht & Hs & Hf & Hrate & Hrps & _ & Hsrv & Hrepo & Herr).
  assert (Hrun : run self env order' d
                 = (set_results self (results self ++ flat_map g order'),
                    _compute_statistics
                      (set_results self (results self ++ flat_map g order')) d)).
  { unfold run.
    replace (num_workers self <=? 0)%Z with false by (symmetry; apply Z.leb_gt; lia).
    assert (G : gather (fun i => worker_task self i (env i)) order' (results self)
                = (results self ++ flat_map g order', inr tt)).
    { apply gather_joined. split; [|reflexivity].
      eapply Permutation_Forall; [exact Hp|exact HF]. }
    rewrite G. reflexivity. }
  destruct (compute_statistics_returns
              (set_results self (results self ++ flat_map g order')) d) as [st' Hst'].
  { cbn [results set_results]. intros E. apply Hne.
    apply Permutation_nil. rewrite <- E. now apply Permutation_sym. }
  { exact Hd. }
  exists st'. rewrite Hrun. cbn [snd]. split; [exact Hst'|].
  apply compute_statistics_inv in Hst'. cbv zeta in Hst'. cbn [results set_results] in Hst'.
  destruct Hst' as (_ & _ & Ht' & Hs' & Hf' & Hrate' & Hrps' & _ & Hsrv' & Hrepo' & Herr').
  destruct (counters_perm _ _ Hperm) as (P1 & P2 & P3 & P4 & P5 & P6).
  rewrite Ht, Ht', Hs, Hs', Hf, Hf', Hrate, Hrate', Hrps, Hrps', Hsrv, Hsrv',
    Hrepo, Hrepo', Herr, Herr'.
  unfold Qlen. rewrite P1, P2, P3, P4, P5, P6. repeat split; reflexivity.
Qed.

Lemma two_by_five_returns :
  exists st, snd (run two_by_five steady [1; 0]%nat 3) = inr st.
Proof.
  destruct (run_extends two_by_five steady [1; 0]%nat 3) as [all [Hrun Hall]];
    [discriminate|vm_compute; discriminate|apply perm_swap|].
  rewrite Hrun. cbn [snd]. apply compute_statistics_returns; [|discriminate].
  cbn [results set_results]. intros ->. discriminate.
Qed.

Lemma run_counters_order_independent_witness :
  exists st st',
    snd (run two_by_five steady [1; 0]%nat 3) = inr st
    /\ snd (run two_by_five steady [0; 1]%nat 3) = inr st'
    /\ Stats.repo_distribution st' = Stats.repo_distribution st
    /\ Stats.successful st' = Stats.successful st.
Proof.
  destruct two_by_five_returns as [st Hst].
  exists st.
  destruct (run_counters_order_independent two_by_five steady [1; 0]%nat [0; 1]%nat 3 st)
    as (st' & Hst' & _ & Hs & _ & _ & _ & _ & Hrepo & _).
  - apply perm_swap.
  - exact Hst.
  - exists st'. repeat split; assumption.
Defined.

(** ** The run: what the statistics of a new runner can hold *)

Lemma filter_length_mono {A} (f g : A -> bool) (l : list A) :
  Forall (fun x => f x = true -> g x = true) l ->
  (length (List.filter f l) <= length (List.filter g l))%nat.
Proof.
  induction 1 as [|x l Hx _ IH]; cbn [List.filter]; [lia|].
  destruct (f x) eqn:E.
  - rewrite (Hx eq_refl). cbn [length]. lia.
  - destruct (g x); cbn [length]; lia.
Qed.

(** X8.  In the statistics of a run started from a new runner, every key
    of [repo_distribution] is one of the configured repositories, and
    the server counters add up to at most the number of successes: a
    failed request is never attributed to a server. *)
Theorem run_statistics_consistent (url : list N) (repos : list (list N))
    (workers quota think : Z) (env : nat -> nat -> draw) (completed : list nat)
    (d : Q) (st : Stats.t) :
  snd (run (new_runner url repos workers quota think) env completed d) = inr st ->
  (forall k, is_Some (Stats.repo_distribution st !! k) -> In k repos)
  /\ (sum_values (Stats.server_distribution st) <= Stats.successful st)%nat.
Proof.
  intros H. set (self := new_runner url repos workers quota think) in *.
  pose proof (gather_Forall
                (fun r => In (repo r) repos /\ (success r = false -> served_by r = []))
                (fun w => worker_task self w (env w)) completed) as HF.
  assert (Hw : forall w rs, worker_task self w (env w) = inr rs ->
                            Forall (fun r => In (repo r) repos
                                             /\ (success r = false -> served_by r = [])) rs).
  { intros w rs Hrs. now apply worker_results_invariant in Hrs. }
  specialize (HF Hw [] (List.Forall_nil _)).
  apply run_returns_inv in H. cbv zeta in H. destruct H as (_ & Hjoin & _ & Hst).
  assert (G : gather (fun w => worker_task self w (env w)) completed (results self)
              = (results self
                 ++ flat_map (fun w => future_result (worker_task self w (env w))) completed,
                 inr tt)) by (apply gather_joined; split; [exact Hjoin|reflexivity]).
  change (results self) with (@nil TestResult) in G at 1. rewrite G in HF. cbn [fst] in HF.
  set (all := results self ++ flat_map _ completed) in *.
  pose proof (server_counts_fold all ∅ (lookup_empty _)) as [Hsum _].
  cbv zeta in Hsum. fold (server_counts all) in Hsum. rewrite sum_values_empty in Hsum.
  apply compute_statistics_inv in Hst. cbv zeta in Hst. cbn [results set_results] in Hst.
  destruct Hst as (_ & _ & _ & Hs & _ & _ & _ & _ & Hsrv & Hrepo & _).
  split.
  - intros k [v Hv]. rewrite Hrepo in Hv. unfold repo_requests in Hv.
    apply (fold_entry repo (fun _ => true)) in Hv as [Hpos Hv].
    cbn [andb] in Hv.
    destruct (List.filter (fun r => bool_decide (repo r = k)) all) as [|r l] eqn:E;
      [cbn in Hv; lia|].
    assert (Hr : In r (List.filter (fun r => bool_decide (repo r = k)) all))
      by (rewrite E; now left).
    apply List.filter_In in Hr as [Hin Hk]. apply bool_decide_eq_true_1 in Hk. subst k.
    rewrite List.Forall_forall in HF. now apply HF.
  - rewrite Hsrv, Hsum, Hs. cbn [Nat.add]. apply filter_length_mono.
    eapply List.Forall_impl; [|exact HF]. intros r [_ Hf] Hh. cbv beta in Hh.
    destruct (success r); [reflexivity|].
    unfold has_served_by in Hh. rewrite (Hf eq_refl) in Hh. discriminate.
Qed.

Lemma run_statistics_consistent_witness :
  exists st, snd (run two_by_five steady [1; 0]%nat 3) = inr st
             /\ (sum_values (Stats.server_distribution st) <= Stats.successful st)%nat.
Proof.
  destruct two_by_five_returns as [st Hst]. exists st. split; [exact Hst|].
  apply (run_statistics_consistent localhost [golang_go] 2 5 0 steady [1; 0]%nat 3 st Hst).
Defined.

(** ** The run: edge cases *)

(** X9.  With at least one worker and a quota of zero or less, a run from
    a new runner sends nothing, collects nothing and ends in
    [ZeroDivisionError], whatever the surroundings and the completion
    order. *)
Theorem run_without_quota_raises (url : list N) (repos : list (list N))
    (workers quota think : Z) (env : nat -> nat -> draw) (completed : list nat) (d : Q) :
  (1 <= workers)%Z -> (quota <= 0)%Z ->
  run (new_runner url repos workers quota think) env completed d
  = (new_runner url repos workers quota think, raise ZeroDivisionError).
Proof.
  intros HN HR. set (self := new_runner url repos workers quota think).
  assert (Hw : forall w, worker_task self w (env w) = inr []).
  { intros w. unfold worker_task, range. cbn [requests_per_worker self new_runner].
    replace (Z.to_nat quota) with 0%nat by lia. reflexivity. }
  assert (G : gather (fun w => worker_task self w (env w)) completed (results self)
              = (results self, inr tt)).
  { apply gather_joined. split.
    - apply List.Forall_forall. intros w _. exists []. apply Hw.
    - induction completed as [|w rest IH]; cbn [flat_map]; [now rewrite app_nil_r|].
      rewrite Hw. cbn [future_result app]. exact IH. }
  unfold run. cbn [num_workers self new_runner] in *.
  replace (workers <=? 0)%Z with false by (symmetry; apply Z.leb_gt; lia).
  fold self. rewrite G. reflexivity.
Qed.

Lemma run_without_quota_raises_witness :
  run (new_runner localhost [golang_go] 4 0 100) steady [2; 0; 3; 1]%nat 1
  = (new_runner localhost [golang_go] 4 0 100, raise ZeroDivisionError).
Proof. apply run_without_quota_raises; lia. Defined.

(** X10.  With an empty repository list, at least one worker and a quota of
    at least one, the first worker that is joined has raised [IndexError]
    on its first request; the run re-raises it and collects nothing. *)
Theorem run_without_repositories_raises (url : list N) (workers quota think : Z)
    (env : nat -> nat -> draw) (w : nat) (rest : list nat) (d : Q) :
  (1 <= workers)%Z -> (1 <= quota)%Z ->
  run (new_runner url [] workers quota think) env (w :: rest) d
  = (new_runner url [] workers quota think, raise IndexError).
Proof.
  intros HN HR. set (self := new_runner url [] workers quota think).
  assert (Hw : worker_task self w (env w) = raise IndexError).
  { unfold worker_task, range. cbn [requests_per_worker self new_runner].
    destruct (Z.to_nat quota) as [|n] eqn:E; [lia|]. reflexivity. }
  unfold run. cbn [num_workers self new_runner].
  replace (workers <=? 0)%Z with false by (symmetry; apply Z.leb_gt; lia).
  fold self. cbn [gather]. rewrite Hw. reflexivity.
Qed.

Lemma run_without_repositories_raises_witness :
  run (new_runner localhost [] 2 5 0) steady [1; 0]%nat 1
  = (new_runner localhost [] 2 5 0, raise IndexError).
Proof. apply run_without_repositories_raises; lia. Defined.

(** ** The run: a proxy that is down, a proxy that is healthy *)












(** ** Latency statistics: the nearest-rank rule on small samples *)

Lemma getitem_nat {A} (l : list A) (k : nat) (x : A) :
  getitem l (Z.of_nat k) = inr x -> l !! k = Some x.
Proof.
  unfold getitem.
  replace (Z.of_nat k <? 0)%Z with false by (symmetry; apply Z.ltb_ge; lia).
  replace (Z.of_nat k <? 0)%Z with false by (symmetry; apply Z.ltb_ge; lia).
  rewrite Nat2Z.id. destruct (l !! k) as [y|]; [|discriminate].
  intros H; injection H as <-. reflexivity.
Qed.

Lemma In_sorted_lookup (durations : list Q) (x : Q) :
  In x durations -> exists j, sorted durations !! j = Some x.
Proof.
  intros H. apply (Permutation_in x (sorted_perm durations)) in H.
  apply list_elem_of_In, list_elem_of_lookup_1 in H. exact H.
Qed.

(** The last element of the sorted list is as large as [max]. *)
Lemma sorted_last_is_max (durations : list Q) (lat : Stats.latency) (x : Q) :
  durations <> [] ->
  latency_stats durations = inr lat ->
  sorted durations !! (length durations - 1)%nat = Some x ->
  (x == Stats.max lat)%Q.
Proof.
  intros Hne H Hx.
  pose proof (latency_min_max_bounds durations lat Hne H) as Hb.
  destruct (latency_stats_inv durations lat Hne H) as (_ & Hmax & _).
  apply py_max_spec in Hmax as [Hin _].
  apply Qle_antisym.
  - apply Hb. eapply sorted_lookup_In. exact Hx.
  - destruct (In_sorted_lookup durations _ Hin) as [j Hj].
    eapply sorted_lookup_mono; [|exact Hj|exact Hx].
    apply lookup_lt_Some in Hj. rewrite sorted_length in Hj. lia.
Qed.

(** X20.  On a small sample the nearest-rank percentiles are the maximum:
    with fewer than 20 successful requests [p95] equals [max], and with
    fewer than 100 [p99] equals [max]. *)
Theorem small_sample_percentiles (durations : list Q) (lat : Stats.latency) :
  durations <> [] ->
  latency_stats durations = inr lat ->
  ((length durations < 20)%nat -> (Stats.p95 lat == Stats.max lat)%Q)
  /\ ((length durations < 100)%nat -> (Stats.p99 lat == Stats.max lat)%Q).
Proof.
  intros Hne H.
  destruct (latency_stats_inv durations lat Hne H) as (_ & _ & _ & _ & H95 & H99).
  apply (percentile_lookup durations 95 _ Hne eq_refl) in H95.
  apply (percentile_lookup durations 99 _ Hne eq_refl) in H99.
  change (Pos.to_nat 95) with 95%nat in H95. change (Pos.to_nat 99) with 99%nat in H99.
  assert (Hn : (0 < length durations)%nat) by (destruct durations; [congruence|cbn; lia]).
  split; intros Hsmall.
  - apply (sorted_last_is_max durations lat _ Hne H).
    replace (length durations - 1)%nat with (length durations * 95 / 100)%nat; [exact H95|].
    symmetry. apply Nat.div_unique with (r := (length durations * 95 - (length durations - 1) * 100)%nat); lia.
  - apply (sorted_last_is_max durations lat _ Hne H).
    replace (length durations - 1)%nat with (length durations * 99 / 100)%nat; [exact H99|].
    symmetry. apply Nat.div_unique with (r := (length durations * 99 - (length durations - 1) * 100)%nat); lia.
Qed.

Lemma small_sample_percentiles_witness :
  exists lat, latency_stats [30; 10; 50; 20; 40]%Q = inr lat
              /\ (Stats.p95 lat == Stats.max lat)%Q
              /\ (Stats.p99 lat == Stats.max lat)%Q.
Proof.
  destruct (latency_stats_total [30; 10; 50; 20; 40]%Q) as [lat Hlat].
  exists lat. split; [exact Hlat|].
  destruct (small_sample_percentiles [30; 10; 50; 20; 40]%Q lat) as [A B];
    [discriminate|exact Hlat|].
  split; [apply A|apply B]; cbn; lia.
Defined.

(** X21.  The median never exceeds [p95]. *)
Theorem median_le_p95 (durations : list Q) (lat : Stats.latency) :
  durations <> [] ->
  latency_stats durations = inr lat ->
  (Stats.median lat <= Stats.p95 lat)%Q.
Proof.
  intros Hne H.
  destruct (latency_stats_inv durations lat Hne H) as (_ & _ & _ & Hmed & H95 & _).
  apply (percentile_lookup durations 95 _ Hne eq_refl) in H95.
  change (Pos.to_nat 95) with 95%nat in H95.
  assert (Hhalf : (length durations / 2 <= length durations * 95 / 100)%nat).
  { apply Nat.div_le_lower_bound; [lia|].
    pose proof (Nat.Div0.mul_div_le (length durations) 2). lia. }
  unfold median in Hmed. rewrite sorted_length in Hmed.
  destruct (length durations =? 0)%nat; [discriminate|].
  destruct (length durations mod 2 =? 1)%nat.
  - apply getitem_nat in Hmed. eapply sorted_lookup_mono; [exact Hhalf|exact Hmed|exact H95].
  - destruct (getitem (sorted durations) (Z.of_nat (length durations / 2 - 1))) as [e|a] eqn:Ea;
      cbn [bind] in Hmed; [discriminate|].
    destruct (getitem (sorted durations) (Z.of_nat (length durations / 2))) as [e|b] eqn:Eb;
      cbn [bind] in Hmed; [discriminate|].
    injection Hmed as Hmed. rewrite <- Hmed.
    apply getitem_nat in Ea, Eb.
    assert (Hab : (a <= b)%Q) by (eapply sorted_lookup_mono; [|exact Ea|exact Eb]; lia).
    assert (Hb : (b <= Stats.p95 lat)%Q)
      by (eapply sorted_lookup_mono; [exact Hhalf|exact Eb|exact H95]).
    apply Qle_shift_div_r; [reflexivity|]. lra.
Qed.

Lemma median_le_p95_witness :
  exists lat, latency_stats [30; 10; 50; 20]%Q = inr lat
              /\ (Stats.median lat <= Stats.p95 lat)%Q.
Proof.
  destruct (latency_stats_total [30; 10; 50; 20]%Q) as [lat Hlat].
  exists lat. split; [exact Hlat|].
  apply (median_le_p95 [30; 10; 50; 20]%Q lat); [discriminate|exact Hlat].
Defined.

(** ** [_compute_statistics]: when it raises *)

(** X13.  [_compute_statistics] returns statistics exactly when the
    result list is not empty and the duration of the run is not zero; in
    every other case it raises [ZeroDivisionError], and it raises nothing
    else. *)
Theorem compute_statistics_raises (self : LoadTestRunner) (d : Q) :
  ((exists st, _compute_statistics self d = inr st)
   <-> results self <> [] /\ ~ (d == 0)%Q)
  /\ (_compute_statistics self d = raise ZeroDivisionError
      <-> results self = [] \/ (d == 0)%Q)
  /\ (forall e, _compute_statistics self d = inl e -> e = ZeroDivisionError).
Proof.
  assert (Hraise : results self = [] \/ (d == 0)%Q ->
                   _compute_statistics self d = raise ZeroDivisionError).
  { unfold _compute_statistics, truediv. intros [Hnil|Hd].
    - rewrite Hnil. reflexivity.
    - destruct (Qeq_bool (Qlen (results self)) 0); [reflexivity|].
      apply Qeq_bool_iff in Hd. rewrite Hd. reflexivity. }
  assert (Hcases : (results self = [] \/ (d == 0)%Q)
                   \/ (results self <> [] /\ ~ (d == 0)%Q)).
  { destruct (results self) as [|r rs]; [left; now left|].
    destruct (Qeq_dec d 0) as [Hd|Hd]; [left; now right|right].
    split; [discriminate|exact Hd]. }
  split; [|split].
  - split.
    + intros [st Hst]. apply compute_statistics_inv in Hst. cbv zeta in Hst. tauto.
    + intros [Hne Hd]. now apply compute_statistics_returns.
  - split; [|exact Hraise].
    intros H. destruct Hcases as [Hc|[Hne Hd]]; [exact Hc|].
    destruct (compute_statistics_returns self d Hne Hd) as [st Hst].
      rewrite Hst in H. discriminate.
  - intros e H. destruct Hcases as [Hc|[Hne Hd]].
    + rewrite (Hraise Hc) in H. now injection H as <-.
    + destruct (compute_statistics_returns self d Hne Hd) as [st Hst].
      rewrite Hst in H. discriminate.
Qed.

(** Three results and a clock that did not advance. *)
Lemma compute_statistics_raises_witness :
  _compute_statistics sample_runner 0 = raise ZeroDivisionError
  /\ exists st, _compute_statistics sample_runner (1 # 1000) = inr st.
Proof.
  destruct (compute_statistics_raises sample_runner 0) as (_ & [_ A] & _).
  destruct (compute_statistics_raises sample_runner (1 # 1000)) as ([_ B] & _).
  split.
  - apply A. right. reflexivity.
  - apply B. split; discriminate.
Defined.
